(** * Verification of the CVE ingestion service (app/services, app/models, app/api)

    Shallow embedding of the record store, the CVE service, the NVD client
    and the synchronisation service.  Timestamps are seconds as [Z];
    CVSS scores are [Decimal] values in tenths as [Z]; JSON payloads that
    the code passes through opaquely are identified by a [nat]. *)

From Stdlib Require Import String Ascii List ZArith Bool Lia.
Import ListNotations.

Local Open Scope string_scope.

(* ------------------------------------------------------------------ *)
(** ** Python exceptions and a state/error monad *)

Module Exc.

(** Exception classes raised by the code we model. *)
Inductive exc_type :=
| ValidationError   (* pydantic ValidationError / ValueError *)
| APIError          (* postgrest APIError raised by the Supabase client *)
| NVDAPIError
| RateLimitError.   (* subclass of NVDAPIError *)

Definition exc_type_eqb (a b : exc_type) : bool :=
  match a, b with
  | ValidationError, ValidationError | APIError, APIError
  | NVDAPIError, NVDAPIError | RateLimitError, RateLimitError => true
  | _, _ => false
  end.

Inductive result (A : Type) :=
| Ok (a : A)
| Err (t : exc_type) (msg : string).
Arguments Ok {A} a.
Arguments Err {A} t msg.

End Exc.
Import Exc.

(* ------------------------------------------------------------------ *)
(** ** The Supabase table: rows as column -> value association lists *)

Module Db.

Inductive value :=
| VNull
| VInt (z : Z)
| VTime (t : Z)
| VStr (s : string)
| VJson (j : nat).

Definition value_eqb (a b : value) : bool :=
  match a, b with
  | VNull, VNull => true
  | VInt x, VInt y => Z.eqb x y
  | VTime x, VTime y => Z.eqb x y
  | VStr x, VStr y => String.eqb x y
  | VJson x, VJson y => Nat.eqb x y
  | _, _ => false
  end.

Definition row := list (string * value).

(** [row[col]]; an absent column reads as NULL. *)
Fixpoint get (c : string) (r : row) : value :=
  match r with
  | [] => VNull
  | (k, v) :: r' => if String.eqb k c then v else get c r'
  end.

Fixpoint put (c : string) (v : value) (r : row) : row :=
  match r with
  | [] => [(c, v)]
  | (k, w) :: r' => if String.eqb k c then (k, v) :: r' else (k, w) :: put c v r'
  end.

Definition put_all (data : list (string * value)) (r : row) : row :=
  fold_left (fun acc kv => put (fst kv) (snd kv) acc) data r.

Record table := mk_table {
  schema : list string;   (* the table's columns *)
  rows : list row;
  next_id : Z             (* next value of the serial primary key *)
}.

Definition known_columns (t : table) (data : list (string * value)) : bool :=
  forallb (fun kv => existsb (String.eqb (fst kv)) t.(schema)) data.

(** [.select("*").eq(col, v).execute()] *)
Definition select_eq (col : string) (v : value) (t : table) : list row :=
  filter (fun r => value_eqb (get col r) v) t.(rows).

(** [.insert(data).execute()] on the cves table: PostgREST rejects an
    unknown column; the unique key [cve_id] rejects a duplicate; the
    server assigns [id], [created_at] and [updated_at]. *)
Definition insert (now : Z) (data : list (string * value)) (t : table)
  : result (row * table) :=
  if negb (known_columns t data) then Err APIError "column not found"
  else if negb (forallb (fun r => negb (value_eqb (get "cve_id" r) (get "cve_id" data))) t.(rows))
  then Err APIError "duplicate key value violates unique constraint"
  else
    let r := put_all data [("id", VInt t.(next_id)); ("created_at", VTime now);
                           ("updated_at", VTime now)] in
    Ok (r, mk_table t.(schema) (t.(rows) ++ [r]) (t.(next_id) + 1)).

(** [.update(data).eq(col, v).execute()]: returns the updated rows. *)
Definition update_eq (data : list (string * value)) (col : string) (v : value) (t : table)
  : result (list row * table) :=
  if negb (known_columns t data) then Err APIError "column not found"
  else
    let upd r := if value_eqb (get col r) v then put_all data r else r in
    Ok (map (put_all data) (select_eq col v t),
        mk_table t.(schema) (map upd t.(rows)) t.(next_id)).

(** [.delete().eq(col, v).execute()]: returns the deleted rows. *)
Definition delete_eq (col : string) (v : value) (t : table) : list row * table :=
  (select_eq col v t,
   mk_table t.(schema) (filter (fun r => negb (value_eqb (get col r) v)) t.(rows)) t.(next_id)).

End Db.
Import Db.

(** The state/error monad threading the cves table. *)
Definition M (A : Type) := table -> result (A * table).
Definition ret {A} (a : A) : M A := fun t => Ok (a, t).
Definition bind {A B} (m : M A) (f : A -> M B) : M B :=
  fun t => match m t with Ok (a, t') => f a t' | Err e msg => Err e msg end.
Definition raise {A} (e : exc_type) (msg : string) : M A := fun _ => Err e msg.
(** [try: m except Exception: h] *)
Definition catch {A} (m : M A) (h : M A) : M A :=
  fun t => match m t with Ok p => Ok p | Err _ _ => h t end.
Notation "x <- m ;; k" := (bind m (fun x => k)) (at level 61, m at next level, right associativity).

(* ------------------------------------------------------------------ *)
(** ** app/models/cve.py: the CVE identifier pattern and its validator *)

Module CveModel.

Definition is_digit (c : ascii) : bool :=
  let n := nat_of_ascii c in (48 <=? n)%nat && (n <=? 57)%nat.

Fixpoint all_digits (s : string) : bool :=
  match s with
  | EmptyString => true
  | String c r => is_digit c && all_digits r
  end.

(** The regular expression [^CVE-\d{4}-\d{4,}$] (full match). *)
Definition matches_cve_pattern (s : string) : bool :=
  match s with
  | String c1 (String c2 (String c3 (String c4
      (String d1 (String d2 (String d3 (String d4 (String c5 r)))))))) =>
      Ascii.eqb c1 "C" && Ascii.eqb c2 "V" && Ascii.eqb c3 "E" && Ascii.eqb c4 "-"
      && is_digit d1 && is_digit d2 && is_digit d3 && is_digit d4
      && Ascii.eqb c5 "-" && all_digits r && (4 <=? String.length r)%nat
  | _ => false
  end.

(** Python's [str.upper] on ASCII text. *)
Definition ascii_upper (c : ascii) : ascii :=
  let n := nat_of_ascii c in
  if (97 <=? n)%nat && (n <=? 122)%nat then ascii_of_nat (n - 32) else c.

Fixpoint upper (s : string) : string :=
  match s with
  | EmptyString => EmptyString
  | String c r => String (ascii_upper c) (upper r)
  end.

(** Python's [str.lower] on ASCII text. *)
Definition ascii_lower (c : ascii) : ascii :=
  let n := nat_of_ascii c in
  if (65 <=? n)%nat && (n <=? 90)%nat then ascii_of_nat (n + 32) else c.

Fixpoint lower (s : string) : string :=
  match s with
  | EmptyString => EmptyString
  | String c r => String (ascii_lower c) (lower r)
  end.

(** [cve_id: str = Field(..., pattern=...)] followed by the after-validator
    [validate_cve_id]: reject unless it starts with "CVE-", then upper-case. *)
Definition validate_cve_id (v : string) : result string :=
  if negb (matches_cve_pattern v) then Err ValidationError "String should match pattern"
  else if negb (String.prefix "CVE-" v) then Err ValidationError "CVE ID must start with CVE-"
  else Ok (upper v).

(** [CVECreate]: optional [Decimal] scores in tenths. *)
Record cve_create := mk_cve_create {
  cve_id : string;
  source_identifier : option string;
  vuln_status : option string;
  published : option Z;
  last_modified : option Z;
  description : option string;
  cvss_v2_score : option Z;
  cvss_v3_score : option Z;
  cvss_v2_vector : option string;
  cvss_v3_vector : option string;
  cvss_v2_severity : option string;
  cvss_v3_severity : option string;
  cpe_configurations : option nat;
  references : option nat;
  weaknesses : option nat;
  configurations : option nat;
  raw_data : option nat
}.

(** [Field(None, ge=0, le=10)] on a score. *)
Definition score_ok (s : option Z) : bool :=
  match s with None => true | Some z => (0 <=? z)%Z && (z <=? 100)%Z end.

End CveModel.
Import CveModel.

(* ------------------------------------------------------------------ *)
(** ** app/services/cve_service.py *)

Module CveService.

(** Read-only access to the table. *)
Definition gets {A} (f : table -> A) : M A := fun t => Ok (f t, t).
Definition lift {A} (r : result A) : M A :=
  fun t => match r with Ok a => Ok (a, t) | Err e msg => Err e msg end.

Definition of_str (o : option string) : value :=
  match o with Some s => VStr s | None => VNull end.
Definition of_time (o : option Z) : value :=
  match o with Some s => VTime s | None => VNull end.
Definition of_json (o : option nat) : value :=
  match o with Some j => VJson j | None => VNull end.
(** [float(score) if score else None]: a zero score is stored as NULL. *)
Definition of_score (o : option Z) : value :=
  match o with Some z => if Z.eqb z 0 then VNull else VInt z | None => VNull end.
(** [float(value)] for a [Decimal] in [update_cve]; [None] stays [None]. *)
Definition of_decimal (o : option Z) : value :=
  match o with Some z => VInt z | None => VNull end.

(** [insert_data] of [create_cve]. *)
Definition insert_data (c : cve_create) : list (string * value) :=
  [("cve_id", VStr c.(cve_id));
   ("source_identifier", of_str c.(source_identifier));
   ("vuln_status", of_str c.(vuln_status));
   ("published", of_time c.(published));
   ("last_modified", of_time c.(last_modified));
   ("description", of_str c.(description));
   ("cvss_v2_score", of_score c.(cvss_v2_score));
   ("cvss_v3_score", of_score c.(cvss_v3_score));
   ("cvss_v2_vector", of_str c.(cvss_v2_vector));
   ("cvss_v3_vector", of_str c.(cvss_v3_vector));
   ("cvss_v2_severity", of_str c.(cvss_v2_severity));
   ("cvss_v3_severity", of_str c.(cvss_v3_severity));
   ("cpe_configurations", of_json c.(cpe_configurations));
   ("cve_references", of_json c.(references));
   ("weaknesses", of_json c.(weaknesses));
   ("configurations", of_json c.(configurations));
   ("raw_data", of_json c.(raw_data))].

(** The columns [create_cve] writes and [_row_to_cve_response] reads. *)
Definition cves_schema : list string :=
  ["id"; "created_at"; "updated_at"] ++ map fst (insert_data
    (mk_cve_create "" None None None None None None None None None None None
                   None None None None None)).

Definition is_duplicate_msg (msg : string) : bool :=
  String.eqb msg "duplicate key value violates unique constraint".

(** [create_cve]. *)
Definition create_cve (now : Z) (c : cve_create) : M row :=
  fun t =>
    match insert now (insert_data c) t with
    | Ok (r, t') => Ok (r, t')
    | Err e msg =>
        if is_duplicate_msg msg
        then Err ValidationError ("CVE " ++ c.(cve_id) ++ " already exists")
        else Err e msg
    end.

(** [CVEUpdate] built from [cve_data.dict(exclude={"cve_id"})], then [.dict(exclude_unset=True)]
    with datetimes and Decimals converted: every field of [CVEUpdate] is set,
    each under its own field name. *)
Definition update_fields (c : cve_create) : list (string * value) :=
  [("source_identifier", of_str c.(source_identifier));
   ("vuln_status", of_str c.(vuln_status));
   ("published", of_time c.(published));
   ("last_modified", of_time c.(last_modified));
   ("description", of_str c.(description));
   ("cvss_v2_score", of_decimal c.(cvss_v2_score));
   ("cvss_v3_score", of_decimal c.(cvss_v3_score));
   ("cvss_v2_vector", of_str c.(cvss_v2_vector));
   ("cvss_v3_vector", of_str c.(cvss_v3_vector));
   ("cvss_v2_severity", of_str c.(cvss_v2_severity));
   ("cvss_v3_severity", of_str c.(cvss_v3_severity));
   ("cpe_configurations", of_json c.(cpe_configurations));
   ("references", of_json c.(references));
   ("weaknesses", of_json c.(weaknesses));
   ("configurations", of_json c.(configurations));
   ("raw_data", of_json c.(raw_data))].

(** [update_cve]: adds [updated_at]; any exception yields [None]. *)
Definition update_cve (now : Z) (id : string) (data : list (string * value))
  : M (option row) :=
  catch
    (fun t =>
       match update_eq (data ++ [("updated_at", VTime now)]) "cve_id" (VStr id) t with
       | Ok (rs, t') => Ok (hd_error rs, t')
       | Err e msg => Err e msg
       end)
    (ret None).

(** [get_cve_by_id]. *)
Definition get_cve_by_id (id : string) : M (option row) :=
  gets (fun t => hd_error (select_eq "cve_id" (VStr id) t)).

Definition row_last_modified (r : row) : option Z :=
  match get "last_modified" r with VTime z => Some z | _ => None end.

(** An [NVDCVEItem] after [_parse_date], [_extract_description] and the
    CVSS extraction of [_process_nvd_item] (none of the claims depends
    on those field extractions). *)
Record nvd_item := mk_nvd_item {
  ni_id : string;
  ni_source_identifier : string;
  ni_vuln_status : string;
  ni_published : option Z;
  ni_last_modified : option Z;
  ni_description : option string;
  ni_v2_score : option Z;
  ni_v3_score : option Z;
  ni_v2_vector : option string;
  ni_v3_vector : option string;
  ni_v2_severity : option string;
  ni_v3_severity : option string;
  ni_configurations : nat;
  ni_references : nat;
  ni_weaknesses : nat;
  ni_raw : nat;
  (* [str(e)] of what [datetime.fromisoformat(cve['lastModified'].replace('Z', '+00:00'))]
     raises when the key is present with a value it rejects (empty, null,
     malformed; [_parse_date] maps those to [None]); [None] when the key
     is absent or its value parses *)
  ni_last_modified_error : option string
}.

(** [Decimal(str(s)) if s else None] *)
Definition to_decimal (s : option Z) : option Z :=
  match s with Some z => if Z.eqb z 0 then None else Some z | None => None end.

(** [_process_nvd_item]: builds and validates the [CVECreate]. *)
Definition process_nvd_item (n : nvd_item) : result cve_create :=
  match validate_cve_id n.(ni_id) with
  | Err e msg => Err e msg
  | Ok id =>
      let v2 := to_decimal n.(ni_v2_score) in
      let v3 := to_decimal n.(ni_v3_score) in
      if negb (score_ok v2 && score_ok v3)
      then Err ValidationError "Input should be less than or equal to 10"
      else Ok (mk_cve_create id (Some n.(ni_source_identifier)) (Some n.(ni_vuln_status))
                 n.(ni_published) n.(ni_last_modified) n.(ni_description) v2 v3
                 n.(ni_v2_vector) n.(ni_v3_vector) n.(ni_v2_severity) n.(ni_v3_severity)
                 (Some n.(ni_configurations)) (Some n.(ni_references))
                 (Some n.(ni_weaknesses)) (Some n.(ni_configurations)) (Some n.(ni_raw)))
  end.

(** [upsert_cve_from_nvd]: returns [(cve_id, was_created)]. *)
Definition upsert_cve_from_nvd (now : Z) (n : nvd_item) : M (string * bool) :=
  c <- lift (process_nvd_item n) ;;
  existing <- get_cve_by_id c.(cve_id) ;;
  match existing with
  | Some r =>
      match c.(last_modified), row_last_modified r with
      | Some new_lm, Some old_lm =>
          if (old_lm <? new_lm)%Z then
            _ <- update_cve now c.(cve_id) (update_fields c) ;;
            ret (c.(cve_id), false)
          else ret (c.(cve_id), false)
      | _, _ => ret (c.(cve_id), false)
      end
  | None =>
      _ <- create_cve now c ;;
      ret (c.(cve_id), true)
  end.

(** [upsert_cves_batch]: an item whose upsert raises is logged and skipped. *)
Fixpoint upsert_batch_loop (now : Z) (items : list nvd_item) (created updated : nat)
  : M (nat * nat) :=
  fun t =>
    match items with
    | [] => Ok ((created, updated), t)
    | it :: rest =>
        match upsert_cve_from_nvd now it t with
        | Ok ((_, was_created), t') =>
            if was_created
            then upsert_batch_loop now rest (S created) updated t'
            else upsert_batch_loop now rest created (S updated) t'
        | Err _ _ => upsert_batch_loop now rest created updated t
        end
    end.

Definition upsert_cves_batch (now : Z) (items : list nvd_item) : M (nat * nat) :=
  upsert_batch_loop now items 0 0.

(** The per-item outcome of a batch: [Some true] created, [Some false]
    upsert returned without creating (newer or not), [None] the upsert
    raised; with the table the batch leaves. *)
Fixpoint upsert_trace (now : Z) (items : list nvd_item) (t : table)
  : list (option bool) * table :=
  match items with
  | [] => ([], t)
  | it :: rest =>
      match upsert_cve_from_nvd now it t with
      | Ok ((_, b), t') => let (tr, tf) := upsert_trace now rest t' in (Some b :: tr, tf)
      | Err _ _ => let (tr, tf) := upsert_trace now rest t in (None :: tr, tf)
      end
  end.

Definition count_outcome (o : option bool) (tr : list (option bool)) : nat :=
  length (filter (fun x => match x, o with
                           | Some a, Some b => Bool.eqb a b
                           | None, None => true
                           | _, _ => false
                           end) tr).

(** [row[col]]: a column missing from the row raises [KeyError] ([None]). *)
Fixpoint lookup (c : string) (r : row) : option value :=
  match r with
  | [] => None
  | (k, v) :: r' => if String.eqb k c then Some v else lookup c r'
  end.

(** [CVEResponse], each field holding the value read from the row. *)
Record cve_response := mk_cve_response {
  resp_id : value;
  resp_cve_id : value;
  resp_source_identifier : value;
  resp_vuln_status : value;
  resp_published : value;
  resp_last_modified : value;
  resp_description : value;
  resp_cvss_v2_score : value;
  resp_cvss_v3_score : value;
  resp_cvss_v2_vector : value;
  resp_cvss_v3_vector : value;
  resp_cvss_v2_severity : value;
  resp_cvss_v3_severity : value;
  resp_cpe_configurations : value;
  resp_references : value;
  resp_weaknesses : value;
  resp_configurations : value;
  resp_created_at : value;
  resp_updated_at : value
}.

(** [_row_to_cve_response]: [references] is read from [cve_references]. *)
Definition row_to_cve_response (r : row) : option cve_response :=
  match lookup "id" r, lookup "cve_id" r, lookup "source_identifier" r,
        lookup "vuln_status" r, lookup "published" r, lookup "last_modified" r,
        lookup "description" r, lookup "cvss_v2_score" r, lookup "cvss_v3_score" r,
        lookup "cvss_v2_vector" r, lookup "cvss_v3_vector" r,
        lookup "cvss_v2_severity" r, lookup "cvss_v3_severity" r,
        lookup "cpe_configurations" r, lookup "cve_references" r,
        lookup "weaknesses" r, lookup "configurations" r,
        lookup "created_at" r, lookup "updated_at" r with
  | Some a1, Some a2, Some a3, Some a4, Some a5, Some a6, Some a7, Some a8, Some a9,
    Some a10, Some a11, Some a12, Some a13, Some a14, Some a15, Some a16, Some a17,
    Some a18, Some a19 =>
      Some (mk_cve_response a1 a2 a3 a4 a5 a6 a7 a8 a9 a10 a11 a12 a13 a14 a15 a16 a17
              a18 a19)
  | _, _, _, _, _, _, _, _, _, _, _, _, _, _, _, _, _, _, _ => None
  end.

(** [delete_cve]: [bool(result.data)]. *)
Definition delete_cve (id : string) : M bool :=
  fun t => let (deleted, t') := delete_eq "cve_id" (VStr id) t in
           Ok (match deleted with [] => false | _ => true end, t').

(** [update_cve] with its [if not update_data] branch: an update that sets
    no field returns the stored record; any other goes through [update_cve]. *)
Definition update_cve_entry (now : Z) (id : string) (data : list (string * value))
  : M (option row) :=
  match data with
  | [] => get_cve_by_id id
  | _ => update_cve now id data
  end.

(** An entry of the NVD [descriptions] list: its [lang] and [value] keys,
    [None] when the key is absent. *)
Record desc_entry := mk_desc { d_lang : option string; d_value : option string }.

(** [dict.get(key, default)] on a string entry. *)
Definition get_or (d : string) (o : option string) : string :=
  match o with Some s => s | None => d end.

(** [str.isspace] on an ASCII character. *)
Definition is_space (c : ascii) : bool :=
  let n := nat_of_ascii c in
  ((9 <=? n)%nat && (n <=? 13)%nat) || ((28 <=? n)%nat && (n <=? 32)%nat).

Fixpoint lstrip (s : string) : string :=
  match s with
  | EmptyString => EmptyString
  | String c r => if is_space c then lstrip r else s
  end.

Fixpoint rstrip (s : string) : string :=
  match s with
  | EmptyString => EmptyString
  | String c r =>
      let r' := rstrip r in
      if is_space c && String.eqb r' "" then EmptyString else String c r'
  end.

(** [str.strip()] *)
Definition strip (s : string) : string := lstrip (rstrip s).

(** The [for desc in descriptions] loop of [_extract_description]. *)
Fixpoint first_english (ds : list desc_entry) : option string :=
  match ds with
  | [] => None
  | d :: ds' =>
      if String.eqb (lower (get_or "" d.(d_lang))) "en"
      then Some (strip (get_or "" d.(d_value)))
      else first_english ds'
  end.

(** [_extract_description] *)
Definition extract_description (ds : list desc_entry) : option string :=
  match ds with
  | [] => None
  | d0 :: _ =>
      match first_english ds with
      | Some s => Some s
      | None => Some (strip (get_or "" d0.(d_value)))
      end
  end.

(** The [cvssData] of a metric: [baseScore] (tenths), [vectorString],
    [baseSeverity], [None] when absent. *)
Record cvss_data := mk_cvss_data {
  base_score : option Z;
  vector_string : option string;
  base_severity : option string
}.

(** The [metrics] object: the metric lists under [cvssMetricV2],
    [cvssMetricV31] and [cvssMetricV30] ([[]] when the key is absent); a
    metric is [None] when it has no [cvssData]. *)
Record metrics := mk_metrics {
  cvss_metric_v2 : list (option cvss_data);
  cvss_metric_v31 : list (option cvss_data);
  cvss_metric_v30 : list (option cvss_data)
}.

(** [cvss_data = metric.get('cvssData', {})] and the three reads. *)
Definition read_metric (m : option cvss_data) : option Z * option string * option string :=
  let d := match m with Some d => d | None => mk_cvss_data None None None end in
  (d.(base_score), d.(vector_string), Some (upper (get_or "" d.(base_severity)))).

(** [_extract_cvss_v2] *)
Definition extract_cvss_v2 (ms : metrics) : option Z * option string * option string :=
  match ms.(cvss_metric_v2) with
  | [] => (None, None, None)
  | m :: _ => read_metric m
  end.

(** [_extract_cvss_v3]: [cvssMetricV31] first, then [cvssMetricV30]. *)
Definition extract_cvss_v3 (ms : metrics) : option Z * option string * option string :=
  match ms.(cvss_metric_v31) with
  | m :: _ => read_metric m
  | [] =>
      match ms.(cvss_metric_v30) with
      | m :: _ => read_metric m
      | [] => (None, None, None)
      end
  end.

End CveService.
Import CveService.

(* ------------------------------------------------------------------ *)
(** ** Listing and statistics: [CVEService.get_cves], [get_statistics] *)

Module Listing.

(** [CVEFilters]; scores in tenths, datetimes as [Z]. *)
Record cve_filters := mk_filters {
  f_cve_id : option string;
  f_year : option Z;
  f_min_score : option Z;
  f_max_score : option Z;
  f_severity : option string;
  f_vuln_status : option string;
  f_modified_since : option Z;
  f_published_since : option Z;
  f_keyword : option string;
  f_sort : option string;
  f_order : option string
}.

(** The PostgREST filters the query builder emits. *)
Inductive clause :=
| Eq (col : string) (v : value)
| Gte (col : string) (v : value)
| Lte (col : string) (v : value)
| ILike (col : string) (pattern : string).

(** Decimal rendering of a non-negative integer, as in an f-string. *)
Fixpoint dec_aux (fuel : nat) (n : N) (acc : string) : string :=
  match fuel with
  | O => acc
  | S k =>
      let d := String (ascii_of_N (48 + N.modulo n 10)) acc in
      if (n <? 10)%N then d else dec_aux k (N.div n 10) d
  end.
Definition z_to_dec (z : Z) : string := dec_aux 20 (Z.to_N z) "".

(** Python truthiness of an optional string. *)
Definition truthy (o : option string) : option string :=
  match o with Some s => if String.eqb s "" then None else Some s | None => None end.

(** The filter part of [get_cves], in the order the source applies it. *)
Definition filter_clauses (f : cve_filters) : list clause :=
  match truthy f.(f_cve_id) with Some id => [Eq "cve_id" (VStr id)] | None => [] end
  ++ match f.(f_year) with
     | Some y => if Z.eqb y 0 then []
                 else [Gte "published" (VStr (z_to_dec y ++ "-01-01"));
                       Lte "published" (VStr (z_to_dec y ++ "-12-31"))]
     | None => [] end
  ++ match f.(f_min_score) with Some s => [Gte "cvss_v3_score" (VInt s)] | None => [] end
  ++ match f.(f_max_score) with Some s => [Lte "cvss_v3_score" (VInt s)] | None => [] end
  ++ match truthy f.(f_severity) with Some s => [Eq "cvss_v3_severity" (VStr (upper s))] | None => [] end
  ++ match truthy f.(f_vuln_status) with Some s => [Eq "vuln_status" (VStr s)] | None => [] end
  ++ match f.(f_modified_since) with Some d => [Gte "last_modified" (VTime d)] | None => [] end
  ++ match f.(f_published_since) with Some d => [Gte "published" (VTime d)] | None => [] end
  ++ match truthy f.(f_keyword) with Some k => [ILike "description" ("%" ++ k ++ "%")] | None => [] end.

(** [sort_field = filters.sort or "last_modified"];
    [sort_desc = (filters.order or "desc").lower() == "desc"]. *)
Definition sort_field (f : cve_filters) : string :=
  match truthy f.(f_sort) with Some s => s | None => "last_modified" end.
Definition sort_desc (f : cve_filters) : bool :=
  match truthy f.(f_order) with Some s => String.eqb (lower s) "desc" | None => true end.

(** The column a filter names. *)
Definition clause_column (c : clause) : string :=
  match c with Eq col _ | Gte col _ | Lte col _ | ILike col _ => col end.

Definition has_column (t : table) (col : string) : bool :=
  existsb (String.eqb col) t.(schema).

(** [_row_to_cve_response(row)] returns rather than raising. *)
Definition converts (r : row) : bool :=
  match row_to_cve_response r with Some _ => true | None => false end.

(** [.range(from, to)]: rows [from .. to] inclusive of the result set. *)
Definition range (from to : Z) (rs : list row) : list row :=
  firstn (Z.to_nat (to - from + 1)) (skipn (Z.to_nat from) rs).

Record cve_list_response := mk_list_response {
  items : list row;
  total : Z;
  page : Z;
  size : Z;
  has_next : bool;
  has_prev : bool
}.

Section Query.
(** How the database evaluates one filter and orders a result set. *)
Variable clause_holds : clause -> row -> bool.
Variable order_by : string -> bool -> list row -> list row.

Definition run_filters (cs : list clause) (rs : list row) : list row :=
  filter (fun r => forallb (fun c => clause_holds c r) cs) rs.

(** The rows [query.range(offset, offset + size - 1)] returns. *)
Definition page_rows (f : cve_filters) (pg sz : Z) (t : table) : list row :=
  let matching := run_filters (filter_clauses f) t.(rows) in
  let sorted := order_by (sort_field f) (sort_desc f) matching in
  let offset := ((pg - 1) * sz)%Z in
  range offset (offset + sz - 1) sorted.

(** Whether the [try] block of [get_cves] runs to its [return]: PostgREST
    rejects a query naming a column the table does not have (a filter
    column or the user's [sort] field, passed to [query.order] unchecked),
    and [_row_to_cve_response] raises [KeyError] on a row missing a
    column it reads. *)
Definition columns_ok (f : cve_filters) (t : table) : bool :=
  forallb (has_column t) (sort_field f :: map clause_column (filter_clauses f)).
Definition query_succeeds (f : cve_filters) (pg sz : Z) (t : table) : bool :=
  columns_ok f t && forallb converts (page_rows f pg sz t).

(** [get_cves]: the count query is [select("count", count="exact")] on
    the whole table; the [except Exception] branch returns an empty page
    with [total=0], [has_next=False] and [has_prev=False]. *)
Definition get_cves (f : cve_filters) (pg sz : Z) (t : table) : cve_list_response :=
  if query_succeeds f pg sz t then
    let its := page_rows f pg sz t in
    let tot := Z.of_nat (length t.(rows)) in
    mk_list_response its tot pg sz (pg * sz <? tot)%Z (1 <? pg)%Z
  else mk_list_response [] 0 pg sz false false.

(** [search_cves]: [.ilike("description", "%term%").limit(limit)
    .order("last_modified", desc=True)]; PostgREST orders, then limits;
    the [except Exception] branch returns [[]]. *)
Definition search_cves (term : string) (limit : Z) (t : table) : list row :=
  let res := firstn (Z.to_nat limit)
               (order_by "last_modified" true
                  (run_filters [ILike "description" ("%" ++ term ++ "%")] t.(rows))) in
  if forallb (has_column t) ["last_modified"; "description"] && forallb converts res
  then res else [].
End Query.

(** [CVEStatistics]. *)
Record cve_statistics := mk_statistics {
  total_cves : Z;
  critical_cves : Z;
  high_cves : Z;
  medium_cves : Z;
  low_cves : Z;
  unscored_cves : Z;
  last_updated : option Z;
  today_published : Z;
  week_published : Z;
  month_published : Z
}.

(** [get_statistics]. *)
Definition get_statistics (now : Z) (t : table) : cve_statistics :=
  mk_statistics (Z.of_nat (length t.(rows))) 0 0 0 0 0 (Some now) 0 0 0.

(** Spec side: the number of stored records whose v3 severity label is [s]. *)
Definition stored_with_severity (s : string) (t : table) : Z :=
  Z.of_nat (length (filter (fun r => value_eqb (get "cvss_v3_severity" r) (VStr s)) t.(rows))).

End Listing.

(* ------------------------------------------------------------------ *)
(** ** app/api/v1/cves.py: [GET /cves/{cve_id}] *)

Module Api.

Inductive http_response :=
| Resp200 (r : row)
| Resp404
| Resp422.

(** [get_cve]: the path parameter is validated against
    [^CVE-\d{4}-\d{4,}$] (422 on mismatch) before the handler runs; the
    handler looks up [cve_id.upper()]. *)
Definition get_cve (path : string) (t : table) : http_response :=
  if negb (matches_cve_pattern path) then Resp422
  else match get_cve_by_id (upper path) t with
       | Ok (Some r, _) => Resp200 r
       | _ => Resp404
       end.


(** Responses of the write endpoints. *)
Inductive api_response :=
| Http200 (r : row)
| Http201 (r : row)
| Http204
| Http400 (detail : string)
| Http404
| Http422
| Http500.

(** [POST /cves/]: the body is validated as a [CVECreate] (422 on
    failure), then [create_cve]; a [ValueError] is a 400. *)
Definition create_cve (now : Z) (c : cve_create) (t : table) : api_response * table :=
  match validate_cve_id c.(cve_id) with
  | Err _ _ => (Http422, t)
  | Ok id =>
      if negb (score_ok c.(cvss_v2_score) && score_ok c.(cvss_v3_score)) then (Http422, t)
      else
        let c := mk_cve_create id c.(source_identifier) c.(vuln_status) c.(published)
                   c.(last_modified) c.(description) c.(cvss_v2_score) c.(cvss_v3_score)
                   c.(cvss_v2_vector) c.(cvss_v3_vector) c.(cvss_v2_severity)
                   c.(cvss_v3_severity) c.(cpe_configurations) c.(references)
                   c.(weaknesses) c.(configurations) c.(raw_data) in
        match CveService.create_cve now c t with
        | Ok (r, t') => (Http201 r, t')
        | Err ValidationError msg => (Http400 msg, t)
        | Err _ _ => (Http500, t)
        end
  end.

(** [PUT /cves/{cve_id}]: [data] is the body's set fields, converted. *)
Definition update_cve (now : Z) (path : string) (data : list (string * value)) (t : table)
  : api_response * table :=
  match update_cve_entry now (upper path) data t with
  | Ok (Some r, t') => (Http200 r, t')
  | Ok (None, t') => (Http404, t')
  | Err _ _ => (Http500, t)
  end.

(** [DELETE /cves/{cve_id}] *)
Definition delete_cve (path : string) (t : table) : api_response * table :=
  match CveService.delete_cve (upper path) t with
  | Ok (true, t') => (Http204, t')
  | Ok (false, t') => (Http404, t')
  | Err _ _ => (Http500, t)
  end.

End Api.

(* ------------------------------------------------------------------ *)
(** ** app/services/nvd_client.py *)

Module NvdClient.

(** What one HTTP attempt produces: a response (status, body, optional
    [X-RateLimit-Reset] header), an [aiohttp.ClientError], or an
    [asyncio.TimeoutError]. *)
Inductive attempt_outcome :=
| Response (status : Z) (body : string) (reset : option Z)
| NetworkError (msg : string)
| Timeout.

Section MakeRequest.
Variable max_retries : nat.
Variable rate_limit_delay : Z.
(** The outcome of attempt number [k] (the network). *)
Variable net : nat -> attempt_outcome.

(** One iteration of [for attempt in range(self.max_retries + 1)];
    returns the result, the sleeps performed, and the attempts made. *)
Fixpoint request_loop (n attempt : nat) (sleeps : list Z)
  : result string * list Z * nat :=
  match n with
  | O => (Err NVDAPIError "Max retries exceeded", sleeps, attempt)
  | S n' =>
      let sleeps := if (0 <? attempt)%nat
                    then app sleeps [(rate_limit_delay * 2 ^ Z.of_nat (attempt - 1))%Z]
                    else sleeps in
      let can_retry := (attempt <? max_retries)%nat in
      match net attempt with
      | Response st body reset =>
          if Z.eqb st 403 then
            let d := match reset with Some r => r | None => rate_limit_delay end in
            if can_retry then request_loop n' (S attempt) (app sleeps [d])
            else (Err RateLimitError "Rate limit exceeded and max retries reached",
                  sleeps, S attempt)
          else if (400 <=? st)%Z then
            if (500 <=? st)%Z && can_retry then request_loop n' (S attempt) sleeps
            else (Err NVDAPIError ("HTTP " ++ Listing.z_to_dec st ++ ": " ++ body),
                  sleeps, S attempt)
          else (Ok body, sleeps, S attempt)
      | NetworkError m =>
          if can_retry then request_loop n' (S attempt) sleeps
          else (Err NVDAPIError ("Network error after "
                  ++ Listing.z_to_dec (Z.of_nat (max_retries + 1)) ++ " attempts: " ++ m),
                sleeps, S attempt)
      | Timeout =>
          if can_retry then request_loop n' (S attempt) sleeps
          else (Err NVDAPIError ("Timeout after "
                  ++ Listing.z_to_dec (Z.of_nat (max_retries + 1)) ++ " attempts"),
                sleeps, S attempt)
      end
  end.

(** [_make_request]. *)
Definition make_request : result string * list Z * nat :=
  request_loop (S max_retries) 0 [].
End MakeRequest.

(** The exception class a request ends with, if any. *)
Definition error_class (r : result string * list Z * nat) : option exc_type :=
  match r with (Err e _, _, _) => Some e | _ => None end.

(** Outcomes the loop retries other than rate limiting: server errors,
    network errors and timeouts. *)
Definition retried_failure (o : attempt_outcome) : bool :=
  match o with
  | Response st _ _ => (500 <=? st)%Z
  | NetworkError _ | Timeout => true
  end.

Definition rate_limited (o : attempt_outcome) : bool :=
  match o with Response st _ _ => Z.eqb st 403 | _ => false end.

(** Spec side: the exponential backoff delays before attempts [1 .. n]. *)
Definition backoff_delays (d : Z) (n : nat) : list Z :=
  map (fun k => (d * 2 ^ Z.of_nat k)%Z) (seq 0 n).

(** Spec side: the sleeps of a request whose attempts [0 .. j-1] were
    retried (a 403 retried after sleeping its reset delay), up to the
    backoff at the top of attempt [j]. *)
Definition top_sleep (d : Z) (k : nat) : list Z :=
  if (0 <? k)%nat then [(d * 2 ^ Z.of_nat (k - 1))%Z] else [].
Definition reset_delay (d : Z) (o : attempt_outcome) : Z :=
  match o with Response _ _ (Some r) => r | _ => d end.
Definition attempt_sleeps (d : Z) (net : nat -> attempt_outcome) (k : nat) : list Z :=
  top_sleep d k ++ (if rate_limited (net k) then [reset_delay d (net k)] else []).
Definition sleeps_before (d : Z) (net : nat -> attempt_outcome) (j : nat) : list Z :=
  concat (map (attempt_sleeps d net) (seq 0 j)) ++ top_sleep d j.

(** An [NVDResponse]: the page's vulnerabilities and [totalResults]. *)
Record nvd_response (A : Type) := mk_response {
  vulnerabilities : list A;
  total_results : Z
}.
Arguments mk_response {A} vulnerabilities total_results.
Arguments vulnerabilities {A} _.
Arguments total_results {A} _.

Section GetAllCves.
Context {A : Type}.
(** [self.get_cves(start_index=..., results_per_page=...)]. *)
Variable get_cves : Z -> Z -> nvd_response A.
(** [self.results_per_page] *)
Variable results_per_page : Z.
(** [max_results]; [None] and [0] are both falsy in [if max_results]. *)
Variable max_results : option Z.

Definition cap_set : option Z :=
  match max_results with Some m => if Z.eqb m 0 then None else Some m | None => None end.

(** The inner [for vuln in response.vulnerabilities] loop: yields,
    counts, and returns from the generator once the cap is reached. *)
Fixpoint yield_page (vs : list A) (fetched : Z) : list A * Z * bool :=
  match vs with
  | [] => ([], fetched, false)
  | v :: vs' =>
      let fetched := (fetched + 1)%Z in
      match cap_set with
      | Some m => if (m <=? fetched)%Z then ([v], fetched, true)
                  else let '(ys, f, r) := yield_page vs' fetched in (v :: ys, f, r)
      | None => let '(ys, f, r) := yield_page vs' fetched in (v :: ys, f, r)
      end
  end.

(** The [while True] loop of [get_all_cves], run for at most [fuel]
    pages; [kw] is [kwargs['results_per_page']]. *)
Fixpoint get_all_loop (fuel : nat) (start_index fetched : Z) (kw : option Z) : list A :=
  match fuel with
  | O => []
  | S fuel' =>
      let kw := match cap_set with
                | Some m => if (m - fetched <? results_per_page)%Z then Some (m - fetched)%Z else kw
                | None => kw
                end in
      (* [results_per_page or self.results_per_page] *)
      let rpp := match kw with Some r => if Z.eqb r 0 then results_per_page else r
                             | None => results_per_page end in
      let response := get_cves start_index rpp in
      let vs := vulnerabilities response in
      match vs with
      | [] => []
      | _ =>
          let '(ys, fetched', returned) := yield_page vs fetched in
          if returned then ys
          else if (total_results response <=? start_index + Z.of_nat (length vs))%Z then ys
          else app ys (get_all_loop fuel' (start_index + Z.of_nat (length vs)) fetched' kw)
      end
  end.

Definition get_all_cves (fuel : nat) : list A := get_all_loop fuel 0 0 None.
End GetAllCves.

(** An upstream whose record set [db] does not change during the fetch:
    page [(start, rpp)] is [db[start:start+rpp]], [totalResults = len(db)]. *)
Definition stable_upstream {A} (db : list A) (start rpp : Z) : nvd_response A :=
  mk_response (firstn (Z.to_nat rpp) (skipn (Z.to_nat start) db)) (Z.of_nat (length db)).

(** Spec side: how many records a stream capped by [cap] should yield. *)
Definition cap_limit {A} (cap : option Z) (db : list A) : nat :=
  match cap_set cap with None => length db | Some m => Z.to_nat m end.

End NvdClient.

(* ------------------------------------------------------------------ *)
(** ** app/services/sync_service.py *)

Module SyncService.

Inductive sync_type := FULL | INCREMENTAL.

Inductive sync_status_enum := PENDING | RUNNING | COMPLETED | FAILED | CANCELLED.

Definition status_eqb (a b : sync_status_enum) : bool :=
  match a, b with
  | PENDING, PENDING | RUNNING, RUNNING | COMPLETED, COMPLETED
  | FAILED, FAILED | CANCELLED, CANCELLED => true
  | _, _ => false
  end.

(** A row of the [sync_status] table. *)
Record sync_row := mk_sync_row {
  sr_id : Z;
  sr_sync_type : sync_type;
  sr_status : sync_status_enum;
  sr_started_at : Z;
  sr_completed_at : option Z;
  sr_total_records : Z;
  sr_processed_records : Z;
  sr_new_records : Z;
  sr_updated_records : Z;
  sr_error_message : option string;
  sr_last_modified_date : option Z
}.

(** The background task in [self._running_sync]: the sync it runs,
    whether its coroutine has started executing, whether it is done. *)
Record task := mk_task {
  task_sync_id : Z;
  task_started : bool;
  task_done : bool
}.

Record state := mk_state {
  running_sync : option task;
  sync_rows : list sync_row
}.

Definition is_sync_running (s : state) : bool :=
  match s.(running_sync) with Some t => negb t.(task_done) | None => false end.

Definition is_terminal (st : sync_status_enum) : bool :=
  match st with COMPLETED | FAILED | CANCELLED => true | _ => false end.

(** [.update(update_data).eq("id", sync_id)] on the sync_status table. *)
Definition update_row (sid : Z) (f : sync_row -> sync_row) (rs : list sync_row) :=
  map (fun r => if Z.eqb r.(sr_id) sid then f r else r) rs.

(** [_update_sync_status]. *)
Definition update_sync_status (now sid : Z) (st : sync_status_enum)
  (total processed new updated : Z) (lmd : option Z) (rs : list sync_row) :=
  update_row sid (fun r =>
    mk_sync_row r.(sr_id) r.(sr_sync_type) st r.(sr_started_at)
      (if is_terminal st then Some now else r.(sr_completed_at))
      total processed new updated r.(sr_error_message) lmd) rs.

(** [.select("id").eq("status", "running").order("started_at", desc=True).limit(1)] *)
Fixpoint latest_running (rs : list sync_row) : option sync_row :=
  match rs with
  | [] => None
  | r :: rs' =>
      let best := latest_running rs' in
      if status_eqb r.(sr_status) RUNNING then
        match best with
        | Some b => if (r.(sr_started_at) <? b.(sr_started_at))%Z then Some b else Some r
        | None => Some r
        end
      else best
  end.

(** [_update_sync_status_error]: [if not sync_id] looks up the latest
    running sync (an id of 0 is falsy too); sets status [FAILED]. *)
Definition update_sync_status_error (now : Z) (sid : option Z) (msg : string)
  (rs : list sync_row) : list sync_row :=
  let target := match sid with
                | Some s => if Z.eqb s 0 then option_map sr_id (latest_running rs) else Some s
                | None => option_map sr_id (latest_running rs)
                end in
  match target with
  | None => rs
  | Some s =>
      update_row s (fun r =>
        mk_sync_row r.(sr_id) r.(sr_sync_type) FAILED r.(sr_started_at) (Some now)
          r.(sr_total_records) r.(sr_processed_records) r.(sr_new_records)
          r.(sr_updated_records) (Some msg) r.(sr_last_modified_date)) rs
  end.

(** [cancel_running_sync]. [self._running_sync.cancel()] followed by
    [await]: a task whose coroutine has started receives [CancelledError]
    at its suspension point, and the handler of [_perform_sync] records
    the error and clears [_running_sync]; a task cancelled before it
    started never runs its body. *)
Definition cancel_running_sync (now : Z) (s : state) : bool * state :=
  if negb (is_sync_running s) then (false, s)
  else
    let rs :=
      match s.(running_sync) with
      | Some t =>
          if t.(task_started)
          then update_sync_status_error now (Some t.(task_sync_id)) "Synchronization cancelled"
                 s.(sync_rows)
          else s.(sync_rows)
      | None => s.(sync_rows)
      end in
    let rs := update_sync_status_error now None "Synchronization cancelled by user" rs in
    (true, mk_state None rs).

(** The state of [_perform_full_sync]: the sync_status rows and the cves table. *)
Record sync_env := mk_env { env_rows : list sync_row; env_cves : table }.

(** [upsert_cves_batch] on the environment; it never raises. *)
Definition run_batch (now : Z) (batch : list nvd_item) (e : sync_env) : nat * nat * sync_env :=
  match upsert_cves_batch now batch e.(env_cves) with
  | Ok ((c, u), t') => (c, u, mk_env e.(env_rows) t')
  | Err _ _ => (0%nat, 0%nat, e)
  end.

Section FullSync.
Variable now : Z.
Variable batch_size : nat.
Variable sid : Z.
Variable total_records : Z.

(** The [async for cve_item in nvd_client.get_all_cves()] loop, with
    counters (processed, created, updated) and the pending batch. *)
Fixpoint full_sync_loop (items : list nvd_item) (processed created updated : Z)
  (batch : list nvd_item) (e : sync_env) : Z * Z * Z * list nvd_item * sync_env :=
  match items with
  | [] => (processed, created, updated, batch, e)
  | it :: rest =>
      let batch := app batch [it] in
      if (batch_size <=? length batch)%nat then
        let '(c, u, e) := run_batch now batch e in
        let created := (created + Z.of_nat c)%Z in
        let updated := (updated + Z.of_nat u)%Z in
        let processed := (processed + Z.of_nat (length batch))%Z in
        let e := mk_env (update_sync_status now sid RUNNING total_records processed
                           created updated None e.(env_rows)) e.(env_cves) in
        full_sync_loop rest processed created updated [] e
      else full_sync_loop rest processed created updated batch e
  end.

(** [_perform_full_sync], given the probe's [total_results] and the
    records the client streams. *)
Definition perform_full_sync (items : list nvd_item) (e : sync_env) : sync_env :=
  let e := mk_env (update_sync_status now sid RUNNING total_records 0 0 0 None e.(env_rows))
                  e.(env_cves) in
  let '(processed, created, updated, batch, e) := full_sync_loop items 0 0 0 [] e in
  let '(processed, created, updated, e) :=
    match batch with
    | [] => (processed, created, updated, e)
    | _ => let '(c, u, e) := run_batch now batch e in
           ((processed + Z.of_nat (length batch))%Z, (created + Z.of_nat c)%Z,
            (updated + Z.of_nat u)%Z, e)
    end in
  (* [last_modified_date=datetime.now(timezone.utc)] *)
  mk_env (update_sync_status now sid COMPLETED total_records processed created updated
            (Some now) e.(env_rows)) e.(env_cves).
End FullSync.

Definition find_row (sid : Z) (rs : list sync_row) : option sync_row :=
  find (fun r => Z.eqb r.(sr_id) sid) rs.

(** Spec side: the greatest last-modified timestamp among the records. *)
Definition max_observed_last_modified (items : list nvd_item) : option Z :=
  fold_left (fun acc it =>
    match acc, it.(ni_last_modified) with
    | Some a, Some b => Some (Z.max a b)
    | None, b => b
    | a, None => a
    end) items None.

(** The row [_create_sync_status] inserts; the columns it does not set
    take the table's defaults. *)
Definition new_sync_row (id : Z) (ty : sync_type) (now : Z) : sync_row :=
  mk_sync_row id ty RUNNING now None 0 0 0 0 None None.

(** A [SyncService] object with the sync_status table and its serial. *)
Record store := mk_store { st_state : state; st_next_id : Z }.

(** [trigger_sync]; [enabled] is [settings.sync_enabled]. The new task
    has been created but has not started running. *)
Definition trigger_sync (enabled : bool) (now : Z) (ty : sync_type) (force : bool) (s : store)
  : result (Z * store) :=
  if negb enabled && negb force then Err ValidationError "Synchronization is disabled"
  else if is_sync_running s.(st_state) && negb force
  then Err ValidationError "Synchronization is already running"
  else
    let st := if is_sync_running s.(st_state)
              then snd (cancel_running_sync now s.(st_state)) else s.(st_state) in
    let id := s.(st_next_id) in
    Ok (id, mk_store (mk_state (Some (mk_task id false false))
                        (app st.(sync_rows) [new_sync_row id ty now])) (id + 1)).

(** [.order("started_at", desc=True).limit(1)] *)
Fixpoint latest_sync (rs : list sync_row) : option sync_row :=
  match rs with
  | [] => None
  | r :: rs' =>
      match latest_sync rs' with
      | Some b => if (r.(sr_started_at) <? b.(sr_started_at))%Z then Some b else Some r
      | None => Some r
      end
  end.

(** [get_sync_status]: an id of 0 is falsy and reads the latest run. *)
Definition get_sync_status (sid : option Z) (rs : list sync_row) : option sync_row :=
  match sid with
  | Some s => if Z.eqb s 0 then latest_sync rs else find_row s rs
  | None => latest_sync rs
  end.

(** [should_run_sync]; [None] when [now - last_sync.completed_at] raises
    [TypeError] on a completed run without completion time. *)
Definition should_run_sync (enabled : bool) (interval_hours now : Z) (rs : list sync_row)
  : option bool :=
  if negb enabled then Some false
  else match get_sync_status None rs with
       | None => Some true
       | Some r =>
           if negb (status_eqb r.(sr_status) COMPLETED) then Some true
           else match r.(sr_completed_at) with
                | None => None
                | Some c => Some (interval_hours * 3600 <=? now - c)%Z
                end
       end.

(** Every finished run has a completion time. *)
Definition completion_recorded (rs : list sync_row) : bool :=
  forallb (fun r => negb (is_terminal r.(sr_status))
                    || match r.(sr_completed_at) with Some _ => true | None => false end) rs.

(** [cleanup_old_sync_records]: [.delete().lt("started_at", cutoff)
    .in_("status", ["completed", "failed", "cancelled"])]. When [db_ok] is
    false the delete raises, and [return deleted_count] raises
    [UnboundLocalError] ([None]). *)
Definition cleanup_old_sync_records (db_ok : bool) (now days : Z) (rs : list sync_row)
  : option Z * list sync_row :=
  if negb db_ok then (None, rs)
  else
    let cutoff := (now - days * 86400)%Z in
    let old r := (r.(sr_started_at) <? cutoff)%Z && is_terminal r.(sr_status) in
    (Some (Z.of_nat (length (filter old rs))), filter (fun r => negb (old r)) rs).

(** [order("completed_at", desc=True)]: in descending order PostgreSQL
    puts NULL first. *)
Definition completed_after (a b : option Z) : bool :=
  match a, b with
  | None, _ => true
  | Some _, None => false
  | Some x, Some y => (y <=? x)%Z
  end.

Fixpoint latest_completed (rs : list sync_row) : option sync_row :=
  match rs with
  | [] => None
  | r :: rs' =>
      match latest_completed rs' with
      | Some b => if completed_after r.(sr_completed_at) b.(sr_completed_at) then Some r else Some b
      | None => Some r
      end
  end.

(** [_get_last_sync_date]: [.eq("status", "completed")
    .not_.is_("last_modified_date", "null").order("completed_at", desc=True).limit(1)]. *)
Definition get_last_sync_date (rs : list sync_row) : option Z :=
  match latest_completed
          (filter (fun r => status_eqb r.(sr_status) COMPLETED
                            && match r.(sr_last_modified_date) with Some _ => true | None => false end)
                  rs) with
  | Some r => r.(sr_last_modified_date)
  | None => None
  end.

(** The [latest_modified] tracking of [_perform_incremental_sync] when no
    record's [lastModified] raises: a record with [lastModified] moves it
    forward when strictly later; a record without the key is skipped. *)
Definition latest_modified (start : Z) (items : list nvd_item) : Z :=
  fold_left (fun acc it =>
    match it.(ni_last_modified) with
    | Some m => if (acc <? m)%Z then m else acc
    | None => acc
    end) items start.

(** The position of the first streamed record whose [lastModified] makes
    [datetime.fromisoformat] raise, with [str(e)]. *)
Fixpoint first_date_error (items : list nvd_item) : option (nat * string) :=
  match items with
  | [] => None
  | it :: rest =>
      match it.(ni_last_modified_error) with
      | Some msg => Some (0%nat, msg)
      | None => match first_date_error rest with
                | Some (k, msg) => Some (S k, msg)
                | None => None
                end
      end
  end.

Section IncrementalSync.
Variable now : Z.
Variable batch_size : nat.
Variable sid : Z.

(** [_perform_incremental_sync], given the probe's [total_results] and the
    records the client streams; its batch loop is the one of the full sync.
    When record [k]'s [lastModified] raises, record [k] has joined the
    batch and the records before it have gone through the loop; the
    exception drops the pending batch and [_perform_sync] records
    [str(e)] with [_update_sync_status_error]. *)
Definition perform_incremental_sync (total_records : Z) (items : list nvd_item) (e : sync_env)
  : sync_env :=
  let last := match get_last_sync_date e.(env_rows) with
              | Some d => d
              | None => (now - 7 * 86400)%Z
              end in
  let e := mk_env (update_sync_status now sid RUNNING total_records 0 0 0 None e.(env_rows))
                  e.(env_cves) in
  if Z.eqb total_records 0 then
    mk_env (update_sync_status now sid COMPLETED 0 0 0 0 (Some now) e.(env_rows)) e.(env_cves)
  else
    match first_date_error items with
    | Some (k, msg) =>
        let '(_, _, _, _, e) :=
          full_sync_loop now batch_size sid total_records (firstn k items) 0 0 0 [] e in
        mk_env (update_sync_status_error now (Some sid) msg e.(env_rows)) e.(env_cves)
    | None =>
        let '(processed, created, updated, batch, e) :=
          full_sync_loop now batch_size sid total_records items 0 0 0 [] e in
        let '(processed, created, updated, e) :=
          match batch with
          | [] => (processed, created, updated, e)
          | _ => let '(c, u, e) := run_batch now batch e in
                 ((processed + Z.of_nat (length batch))%Z, (created + Z.of_nat c)%Z,
                  (updated + Z.of_nat u)%Z, e)
          end in
        mk_env (update_sync_status now sid COMPLETED total_records processed created updated
                  (Some (latest_modified last items)) e.(env_rows)) e.(env_cves)
    end.
End IncrementalSync.

(** [_perform_sync] for a full sync whose record stream raises [err] after
    yielding [items]: [_perform_full_sync] re-raises and the handler records
    the error with [_update_sync_status_error(sync_id, str(e))]. *)
Definition full_sync_stream_failure (now : Z) (bs : nat) (sid total : Z)
  (items : list nvd_item) (err : string) (e : sync_env) : sync_env :=
  let e := mk_env (update_sync_status now sid RUNNING total 0 0 0 None e.(env_rows)) e.(env_cves) in
  let '(_, _, _, _, e) := full_sync_loop now bs sid total items 0 0 0 [] e in
  mk_env (update_sync_status_error now (Some sid) err e.(env_rows)) e.(env_cves).

End SyncService.

(* ------------------------------------------------------------------ *)
(** ** app/api/v1/sync.py *)

Module SyncApi.
Import SyncService.

(** [get_sync_service]: every request builds a new [SyncService], whose
    [_running_sync] is [None]; only the sync_status table is shared. *)
Definition fresh_service (rs : list sync_row) : state := mk_state None rs.

(** [POST /sync/] *)
Definition trigger_sync (enabled : bool) (now : Z) (ty : sync_type) (force : bool)
  (rs : list sync_row) (next_id : Z) : result (Z * store) :=
  SyncService.trigger_sync enabled now ty force (mk_store (fresh_service rs) next_id).

(** [GET /sync/running] *)
Definition check_sync_running (rs : list sync_row) : bool :=
  is_sync_running (fresh_service rs).

(** [POST /sync/cancel]: [true] is a 200, [false] a 404. *)
Definition cancel_sync (now : Z) (rs : list sync_row) : bool * list sync_row :=
  let (b, s) := cancel_running_sync now (fresh_service rs) in (b, s.(sync_rows)).

End SyncApi.

(* ------------------------------------------------------------------ *)
(** ** Concrete inputs *)

Module Samples.

Definition item_v1 : nvd_item :=
  mk_nvd_item "CVE-2023-0001" "nvd@nist.gov" "Analyzed" (Some 50%Z) (Some 100%Z)
    (Some "Buffer overflow") None (Some 75%Z) None (Some "CVSS:3.1/AV:N") None
    (Some "HIGH") 1 1 1 1 None.

(** The same CVE, modified later upstream. *)
Definition item_v2 : nvd_item :=
  mk_nvd_item "CVE-2023-0001" "nvd@nist.gov" "Modified" (Some 50%Z) (Some 200%Z)
    (Some "Heap buffer overflow") None (Some 98%Z) None (Some "CVSS:3.1/AV:N/AC:L") None
    (Some "CRITICAL") 2 2 2 2 None.

(** An item whose identifier does not match the CVE pattern. *)
Definition item_bad_id : nvd_item :=
  mk_nvd_item "CVE-23-1" "nvd@nist.gov" "Analyzed" None (Some 100%Z) None None None
    None None None None 3 3 3 3 None.

(** A record whose [lastModified] is present but empty. *)
Definition item_bad_date : nvd_item :=
  mk_nvd_item "CVE-2023-0002" "nvd@nist.gov" "Analyzed" (Some 50%Z) None
    (Some "Use after free") None (Some 81%Z) None (Some "CVSS:3.1/AV:L") None
    (Some "HIGH") 4 4 4 4 (Some "Invalid isoformat string: ''").

Definition cves0 : table := mk_table cves_schema [] 1.

Definition cves1 : table :=
  match upsert_cve_from_nvd 10 item_v1 cves0 with Ok (_, t) => t | Err _ _ => cves0 end.

Definition running_row : SyncService.sync_row :=
  SyncService.mk_sync_row 1 SyncService.FULL SyncService.RUNNING 5 None 3 0 0 0 None None.

Definition active_state : SyncService.state :=
  SyncService.mk_state (Some (SyncService.mk_task 1 true false)) [running_row].

Definition just_created_state : SyncService.state :=
  SyncService.mk_state (Some (SyncService.mk_task 1 false false)) [running_row].

(** A CVE as a client would POST it. *)
Definition new_cve : cve_create :=
  mk_cve_create "CVE-2024-12345" (Some "nvd@nist.gov") (Some "Analyzed") (Some 50%Z)
    (Some 60%Z) (Some "Overflow") (Some 0%Z) (Some 98%Z) None (Some "CVSS:3.1/AV:N") None
    (Some "CRITICAL") (Some 1) (Some 2) (Some 3) (Some 4) (Some 5).

End Samples.

(* ================================================================== *)
(** * Theorems *)

(** ** Helper lemmas *)

Lemma is_digit_upper c : is_digit c = true -> ascii_upper c = c.
Proof.
  unfold is_digit, ascii_upper. intros H.
  apply andb_prop in H as [H1 H2]. apply Nat.leb_le in H1, H2.
  destruct (97 <=? nat_of_ascii c)%nat eqn:E; simpl; [|reflexivity].
  apply Nat.leb_le in E. lia.
Qed.

Lemma all_digits_upper s : all_digits s = true -> upper s = s.
Proof.
  induction s as [|c r IH]; simpl; [reflexivity|].
  intros H. apply andb_prop in H as [Hc Hr].
  rewrite is_digit_upper, IH by assumption. reflexivity.
Qed.

Lemma ascii_eqb_upper c d : Ascii.eqb c d = true -> ascii_upper d = d -> ascii_upper c = c.
Proof. intros H Hd. apply Ascii.eqb_eq in H. subst. exact Hd. Qed.

(** Upper-casing is the identity on identifiers the pattern accepts. *)
Lemma upper_of_matching s : matches_cve_pattern s = true -> upper s = s.
Proof.
  destruct s as [|c1 [|c2 [|c3 [|c4 [|d1 [|d2 [|d3 [|d4 [|c5 r]]]]]]]]];
    simpl; try discriminate.
  intros H. repeat (apply andb_prop in H as [H ?]).
  simpl.
  repeat match goal with
  | Hd : is_digit ?d = true |- context [ascii_upper ?d] => rewrite (is_digit_upper d Hd)
  | Hc : Ascii.eqb ?c _ = true |- context [ascii_upper ?c] =>
      rewrite (ascii_eqb_upper _ _ Hc eq_refl)
  end.
  rewrite all_digits_upper by assumption. reflexivity.
Qed.

(** An update naming a column the table lacks is rejected by PostgREST,
    and [update_cve] swallows the error: nothing is written. *)
Lemma update_cve_unknown_column now id data t col v :
  In (col, v) data -> ~ In col t.(schema) -> update_cve now id data t = Ok (None, t).
Proof.
  intros Hin Hnot. unfold update_cve, catch, update_eq.
  assert (known_columns t (data ++ [("updated_at", VTime now)]) = false) as ->.
  { unfold known_columns. apply not_true_iff_false. intros Hall.
    rewrite forallb_forall in Hall.
    specialize (Hall (col, v) (in_or_app _ _ _ (or_introl Hin))).
    apply existsb_exists in Hall as [x [Hx Heq]]. simpl in Heq.
    apply String.eqb_eq in Heq. subst. contradiction. }
  reflexivity.
Qed.

(** With no run active, [cancel_running_sync] returns [False] and leaves
    the state as it was. *)
Lemma cancel_without_run now s :
  SyncService.is_sync_running s = false -> SyncService.cancel_running_sync now s = (false, s).
Proof. intros H. unfold SyncService.cancel_running_sync. rewrite H. reflexivity. Qed.

(** ** C1 *)

(** Claim C1 (code defect): a CVE whose incoming [lastModified] (200) is
    strictly newer than the stored one (100) is not stored: the update
    writes the field [references], a column the table does not have (create
    writes it as [cve_references]); PostgREST rejects the whole update,
    [update_cve] swallows the error, and the stored row keeps the old
    timestamp and content while the upsert still reports success. *)
Theorem upsert_newer_record_not_stored :
  upsert_cve_from_nvd 10 Samples.item_v1 Samples.cves0
    = Ok (("CVE-2023-0001", true), Samples.cves1) /\
  upsert_cve_from_nvd 20 Samples.item_v2 Samples.cves1
    = Ok (("CVE-2023-0001", false), Samples.cves1) /\
  map (get "last_modified") Samples.cves1.(rows) = [VTime 100] /\
  map (get "cve_references") Samples.cves1.(rows) = [VJson 1].
Proof. vm_compute. repeat split. Qed.

(** ** C3 *)

(** Claim C3 (code defect): cancelling an active run returns [True] but
    leaves the run's row in status [failed], never [cancelled]: both the
    task's [CancelledError] handler and [cancel_running_sync] go through
    [_update_sync_status_error], which always writes [FAILED]. This holds
    for a task that had started and for one cancelled before it started. *)
Theorem cancel_marks_run_failed :
  SyncService.cancel_running_sync 50 Samples.active_state =
    (true, SyncService.mk_state None
             [SyncService.mk_sync_row 1 SyncService.FULL SyncService.FAILED 5 (Some 50%Z)
                3 0 0 0 (Some "Synchronization cancelled") None]) /\
  SyncService.cancel_running_sync 50 Samples.just_created_state =
    (true, SyncService.mk_state None
             [SyncService.mk_sync_row 1 SyncService.FULL SyncService.FAILED 5 (Some 50%Z)
                3 0 0 0 (Some "Synchronization cancelled by user") None]).
Proof. split; reflexivity. Qed.

(** ** C5 *)

(** Claim C5, counterexample: with one stored CRITICAL record, statistics
    reports zero critical records. *)
Lemma statistics_counterexample :
  let t := mk_table cves_schema
             [[("id", VInt 1); ("cve_id", VStr "CVE-2023-0001");
               ("cvss_v3_severity", VStr "CRITICAL")]] 2 in
  Listing.critical_cves (Listing.get_statistics 0 t) = 0%Z /\
  Listing.stored_with_severity "CRITICAL" t = 1%Z.
Proof. split; reflexivity. Qed.

(** Claim C5, as amended: [get_statistics] reports the number of stored
    records as the total and zero for every severity band and every
    recency window, whatever the stored records are. *)
Theorem statistics_only_total :
  forall now t,
    let s := Listing.get_statistics now t in
    Listing.total_cves s = Z.of_nat (length t.(rows)) /\
    Listing.critical_cves s = 0%Z /\ Listing.high_cves s = 0%Z /\
    Listing.medium_cves s = 0%Z /\ Listing.low_cves s = 0%Z /\
    Listing.unscored_cves s = 0%Z /\ Listing.today_published s = 0%Z /\
    Listing.week_published s = 0%Z /\ Listing.month_published s = 0%Z.
Proof. intros now t. repeat split. Qed.

(** ** C6 *)

(** Claim C6, counterexample: the lowercase identifier is rejected with 422
    while the uppercase one finds the stored row. *)
Lemma get_cve_lowercase_counterexample :
  Api.get_cve "cve-2023-0001" Samples.cves1 = Api.Resp422 /\
  exists r, Api.get_cve "CVE-2023-0001" Samples.cves1 = Api.Resp200 r.
Proof.
  split; [reflexivity|].
  eexists. vm_compute. reflexivity.
Qed.

(** Claim C6, as amended: get-by-id accepts only identifiers matching
    [^CVE-\d{4}-\d{4,}$] and rejects every other form, lowercase included,
    with 422 without touching the store; an accepted identifier is looked
    up unchanged (upper-casing it is the identity). *)
Theorem get_cve_requires_uppercase :
  forall path t,
    Api.get_cve path t =
      if matches_cve_pattern path then
        match hd_error (select_eq "cve_id" (VStr path) t) with
        | Some r => Api.Resp200 r
        | None => Api.Resp404
        end
      else Api.Resp422.
Proof.
  intros path t. unfold Api.get_cve.
  destruct (matches_cve_pattern path) eqn:E; simpl; [|reflexivity].
  rewrite upper_of_matching by exact E.
  unfold get_cve_by_id, gets. destruct (hd_error _); reflexivity.
Qed.

(** ** C7 *)

Lemma page_rows_range clause_holds order_by f pg sz t :
  (1 <= sz)%Z ->
  Listing.page_rows clause_holds order_by f pg sz t
  = firstn (Z.to_nat sz)
      (skipn (Z.to_nat ((pg - 1) * sz))
         (order_by (Listing.sort_field f) (Listing.sort_desc f)
            (Listing.run_filters clause_holds (Listing.filter_clauses f) t.(rows)))).
Proof.
  intros Hsz. unfold Listing.page_rows, Listing.range. cbv zeta.
  replace ((pg - 1) * sz + sz - 1 - (pg - 1) * sz + 1)%Z with sz by lia.
  reflexivity.
Qed.

(** Claim C7, counterexample: [sort=severity] names no column of the
    table; PostgREST rejects the query and the [except] branch answers
    page 2 with [has_prev = False]. *)
Lemma get_cves_pagination_counterexample :
  Listing.has_prev
    (Listing.get_cves (fun _ _ => true) (fun _ _ rs => rs)
       (Listing.mk_filters None None None None None None None None None (Some "severity") None)
       2 1 Samples.cves1) = false /\
  (1 <? 2)%Z = true.
Proof. split; reflexivity. Qed.

(** Claim C7, as amended: for page [pg >= 1] and size [sz >= 1] (the
    API's [ge=1] bounds), when the query succeeds the page holds at most
    [sz] items, taken from offset [(pg-1)*sz] of the filtered, sorted
    rows, [has_next] is [pg*sz < total] and [has_prev] is [pg > 1],
    [total] being the number of stored records; when it raises (a column
    the table lacks, such as an unknown [sort] field, or a row that does
    not convert) the [except] branch returns no items, [total = 0] and
    [has_next = has_prev = False], whatever the page. *)
Theorem get_cves_pagination :
  forall clause_holds order_by f pg sz t,
    (1 <= pg)%Z -> (1 <= sz)%Z ->
    let r := Listing.get_cves clause_holds order_by f pg sz t in
    let T := Z.of_nat (length t.(rows)) in
    (Listing.query_succeeds clause_holds order_by f pg sz t = true ->
     (Z.of_nat (length (Listing.items r)) <= sz)%Z /\
     Listing.items r =
       firstn (Z.to_nat sz)
         (skipn (Z.to_nat ((pg - 1) * sz))
            (order_by (Listing.sort_field f) (Listing.sort_desc f)
               (Listing.run_filters clause_holds (Listing.filter_clauses f) t.(rows)))) /\
     Listing.total r = T /\
     Listing.has_next r = (pg * sz <? T)%Z /\
     Listing.has_prev r = (1 <? pg)%Z) /\
    (Listing.query_succeeds clause_holds order_by f pg sz t = false ->
     Listing.items r = [] /\ Listing.total r = 0%Z /\
     Listing.has_next r = false /\ Listing.has_prev r = false).
Proof.
  intros clause_holds order_by f pg sz t Hpg Hsz r T. split.
  - intros Hok. unfold r, Listing.get_cves. rewrite Hok. cbn [Listing.items Listing.total
      Listing.has_next Listing.has_prev].
    rewrite (page_rows_range clause_holds order_by f pg sz t Hsz).
    split; [|repeat split].
    match goal with
    | |- (Z.of_nat (length (firstn ?n ?l)) <= _)%Z => pose proof (firstn_le_length n l)
    end.
    lia.
  - intros Hko. unfold r, Listing.get_cves. rewrite Hko. repeat split.
Qed.

Lemma get_cves_pagination_witness :
  (1 <= 2)%Z /\ (1 <= 1)%Z /\
  Listing.query_succeeds (fun _ _ => true) (fun _ _ rs => rs)
    (Listing.mk_filters None None None None None None None None None None None)
    2 1 Samples.cves1 = true /\
  Listing.has_prev
    (Listing.get_cves (fun _ _ => true) (fun _ _ rs => rs)
       (Listing.mk_filters None None None None None None None None None None None)
       2 1 Samples.cves1) = true.
Proof.
  assert (Hok : Listing.query_succeeds (fun _ _ => true) (fun _ _ rs => rs)
                  (Listing.mk_filters None None None None None None None None None None None)
                  2 1 Samples.cves1 = true) by reflexivity.
  split; [lia|]. split; [lia|]. split; [exact Hok|].
  destruct (get_cves_pagination (fun _ _ => true) (fun _ _ rs => rs)
              (Listing.mk_filters None None None None None None None None None None None)
              2 1 Samples.cves1 ltac:(lia) ltac:(lia)) as [Hs _].
  destruct (Hs Hok) as [_ [_ [_ [_ Hprev]]]].
  rewrite Hprev. reflexivity.
Defined.

(** ** C9 *)

(** Claim C9, counterexample: with an unknown [sort] field the query
    raises and the [except] branch reports [total = 0] for a table
    holding one record. *)
Lemma get_cves_total_counterexample :
  Listing.total
    (Listing.get_cves (fun _ _ => true) (fun _ _ rs => rs)
       (Listing.mk_filters None None None None None None None None None (Some "severity") None)
       1 20 Samples.cves1) = 0%Z /\
  Z.of_nat (length Samples.cves1.(rows)) = 1%Z.
Proof. split; reflexivity. Qed.

(** Claim C9, as amended: when the list query succeeds, whatever the
    filters, the reported total (on which [has_next] is computed) is the
    size of the whole table, which bounds the number of matching records
    from above; when it raises, the [except] branch reports [total = 0]
    and [has_next = False]. *)
Theorem get_cves_total_ignores_filters :
  forall clause_holds order_by f pg sz t,
    let r := Listing.get_cves clause_holds order_by f pg sz t in
    (Listing.query_succeeds clause_holds order_by f pg sz t = true ->
     Listing.total r = Z.of_nat (length t.(rows)) /\
     Listing.has_next r = (pg * sz <? Z.of_nat (length t.(rows)))%Z /\
     (Z.of_nat (length (Listing.run_filters clause_holds (Listing.filter_clauses f) t.(rows)))
        <= Listing.total r)%Z) /\
    (Listing.query_succeeds clause_holds order_by f pg sz t = false ->
     Listing.total r = 0%Z /\ Listing.has_next r = false).
Proof.
  intros clause_holds order_by f pg sz t r. split.
  - intros Hok. unfold r, Listing.get_cves. rewrite Hok. cbn [Listing.total Listing.has_next].
    split; [reflexivity|]. split; [reflexivity|].
    unfold Listing.run_filters.
    match goal with
    | |- (Z.of_nat (length (filter ?p ?l)) <= _)%Z => pose proof (filter_length_le p l)
    end.
    lia.
  - intros Hko. unfold r, Listing.get_cves. rewrite Hko. split; reflexivity.
Qed.

(** A keyword that matches no description: the query succeeds, no row
    matches, and the total still counts the stored record. *)
Lemma get_cves_total_ignores_filters_witness :
  Listing.query_succeeds (fun c r => match c with Listing.ILike _ _ => false | _ => true end)
    (fun _ _ rs => rs)
    (Listing.mk_filters None None None None None None None None (Some "zzz") None None)
    1 20 Samples.cves1 = true /\
  Listing.run_filters (fun c r => match c with Listing.ILike _ _ => false | _ => true end)
    (Listing.filter_clauses
       (Listing.mk_filters None None None None None None None None (Some "zzz") None None))
    Samples.cves1.(rows) = [] /\
  Listing.total
    (Listing.get_cves (fun c r => match c with Listing.ILike _ _ => false | _ => true end)
       (fun _ _ rs => rs)
       (Listing.mk_filters None None None None None None None None (Some "zzz") None None)
       1 20 Samples.cves1) = 1%Z.
Proof.
  assert (Hok : Listing.query_succeeds
                  (fun c r => match c with Listing.ILike _ _ => false | _ => true end)
                  (fun _ _ rs => rs)
                  (Listing.mk_filters None None None None None None None None (Some "zzz") None None)
                  1 20 Samples.cves1 = true) by reflexivity.
  split; [exact Hok|]. split; [reflexivity|].
  destruct (get_cves_total_ignores_filters
              (fun c r => match c with Listing.ILike _ _ => false | _ => true end)
              (fun _ _ rs => rs)
              (Listing.mk_filters None None None None None None None None (Some "zzz") None None)
              1 20 Samples.cves1) as [Hs _].
  destruct (Hs Hok) as [Htot _]. rewrite Htot. reflexivity.
Defined.

(** ** C2 *)

Lemma firstn_split {A} (l : list A) k a :
  (k <= a)%nat -> firstn a l = (firstn k l ++ firstn (a - k) (skipn k l))%list.
Proof.
  revert l a. induction k as [|k IH]; intros l a Hk.
  - simpl. rewrite Nat.sub_0_r. reflexivity.
  - destruct a as [|a]; [lia|]. destruct l as [|x l]; simpl.
    + rewrite firstn_nil. reflexivity.
    + f_equal. apply IH. lia.
Qed.

Lemma yield_page_nocap {A} cap (vs : list A) f :
  NvdClient.cap_set cap = None ->
  NvdClient.yield_page cap vs f = (vs, (f + Z.of_nat (length vs))%Z, false).
Proof.
  intros Hc. revert f. induction vs as [|v vs IH]; intros f; simpl.
  - rewrite Z.add_0_r. reflexivity.
  - rewrite Hc, IH. f_equal. f_equal. lia.
Qed.

Lemma yield_page_cap {A} cap m (vs : list A) f :
  NvdClient.cap_set cap = Some m -> (f < m)%Z ->
  NvdClient.yield_page cap vs f =
    if (m <=? f + Z.of_nat (length vs))%Z
    then (firstn (Z.to_nat (m - f)) vs, m, true)
    else (vs, (f + Z.of_nat (length vs))%Z, false).
Proof.
  intros Hc. revert f. induction vs as [|v vs IH]; intros f Hf; simpl.
  - rewrite Z.add_0_r. destruct (m <=? f)%Z eqn:E; [apply Z.leb_le in E; lia|reflexivity].
  - rewrite Hc. destruct (m <=? f + 1)%Z eqn:E1.
    + apply Z.leb_le in E1.
      assert (Hm : m = (f + 1)%Z) by lia. subst m.
      assert (E : (f + 1 <=? f + Z.pos (Pos.of_succ_nat (length vs)))%Z = true)
        by (apply Z.leb_le; lia).
      rewrite E. replace (Z.to_nat (f + 1 - f)) with 1%nat by lia. reflexivity.
    + apply Z.leb_gt in E1. rewrite (IH (f + 1)%Z) by lia.
      replace (f + 1 + Z.of_nat (length vs))%Z with (f + Z.pos (Pos.of_succ_nat (length vs)))%Z
        by lia.
      destruct (m <=? f + Z.pos (Pos.of_succ_nat (length vs)))%Z eqn:E2.
      * replace (Z.to_nat (m - f)) with (S (Z.to_nat (m - (f + 1)))) by lia. reflexivity.
      * reflexivity.
Qed.

(** Against an upstream that does not change during the fetch, the pager
    yields exactly the first [cap_limit cap db] records of [db] from offset
    [start] on, each page advancing the offset by the records it returned. *)
Lemma get_all_loop_stable {A} (db : list A) rpp cap :
  (1 <= rpp)%Z ->
  forall fuel start kw,
    (start <= length db)%nat -> (length db - start < fuel)%nat ->
    (forall r, kw = Some r -> (1 <= r)%Z) ->
    (forall m, NvdClient.cap_set cap = Some m -> (Z.of_nat start < m)%Z) ->
    NvdClient.get_all_loop (NvdClient.stable_upstream db) rpp cap fuel
      (Z.of_nat start) (Z.of_nat start) kw
    = firstn (NvdClient.cap_limit cap db - start) (skipn start db).
Proof.
  intros Hrpp. induction fuel as [|fuel IH]; intros start kw Hle Hfuel Hkw Hcap; [lia|].
  cbn [NvdClient.get_all_loop].
  unfold NvdClient.cap_limit.
  destruct (NvdClient.cap_set cap) as [m|] eqn:Hc.
  - assert (Hm : (Z.of_nat start < m)%Z) by (apply Hcap; reflexivity).
    remember (if (m - Z.of_nat start <? rpp)%Z then Some (m - Z.of_nat start)%Z else kw)
      as kw' eqn:Ekw.
    assert (Hkw' : forall r, kw' = Some r -> (1 <= r)%Z).
    { intros r0 Hr0. subst kw'. destruct (m - Z.of_nat start <? rpp)%Z.
      - injection Hr0 as <-. lia.
      - apply Hkw. exact Hr0. }
    remember (match kw' with Some r => if (r =? 0)%Z then rpp else r | None => rpp end)
      as r eqn:Er.
    assert (Hr : (1 <= r)%Z).
    { subst r. destruct kw' as [r0|]; [|lia].
      destruct (r0 =? 0)%Z; [lia|]. apply Hkw'. reflexivity. }
    unfold NvdClient.stable_upstream. cbn [NvdClient.vulnerabilities NvdClient.total_results].
    rewrite Nat2Z.id.
    remember (firstn (Z.to_nat r) (skipn start db)) as vs eqn:Hvs.
    assert (Hlen : length vs = Nat.min (Z.to_nat r) (length db - start))
      by (subst vs; rewrite length_firstn, length_skipn; reflexivity).
    destruct (Nat.eq_dec start (length db)) as [Heq|Hneq].
    + assert (vs = []) as -> by (subst vs start; rewrite skipn_all; apply firstn_nil).
      subst start. rewrite skipn_all, firstn_nil. reflexivity.
    + destruct vs as [|v0 vs0]; [simpl in Hlen; lia|].
      cbv beta iota.
      remember (v0 :: vs0) as vs eqn:Evs. clear v0 vs0 Evs.
      rewrite (yield_page_cap cap m vs (Z.of_nat start) Hc Hm).
      destruct (m <=? Z.of_nat start + Z.of_nat (length vs))%Z eqn:E; cbv beta iota.
      * apply Z.leb_le in E. rewrite Hvs, firstn_firstn.
        f_equal. lia.
      * apply Z.leb_gt in E.
        destruct (Z.of_nat (length db) <=? Z.of_nat start + Z.of_nat (length vs))%Z eqn:E2.
        -- apply Z.leb_le in E2.
           rewrite Hvs, !firstn_all2; [reflexivity| |]; rewrite length_skipn; lia.
        -- apply Z.leb_gt in E2.
           rewrite <- Nat2Z.inj_add.
           rewrite IH; [| lia | lia | exact Hkw' | intros m' Hm'; injection Hm' as <-; lia].
           rewrite (firstn_split (skipn start db) (length vs)) by lia.
           assert (Hk : length vs = Z.to_nat r) by lia.
           rewrite Hk, <- Hvs, skipn_skipn.
           unfold NvdClient.cap_limit; rewrite Hc. f_equal. f_equal; [lia|]. f_equal. lia.
  - unfold NvdClient.stable_upstream. cbn [NvdClient.vulnerabilities NvdClient.total_results].
    remember (match kw with Some r => if (r =? 0)%Z then rpp else r | None => rpp end)
      as r eqn:Er.
    assert (Hr : (1 <= r)%Z).
    { subst r. destruct kw as [r0|]; [|lia].
      destruct (r0 =? 0)%Z; [lia|]. apply Hkw. reflexivity. }
    rewrite Nat2Z.id.
    remember (firstn (Z.to_nat r) (skipn start db)) as vs eqn:Hvs.
    assert (Hlen : length vs = Nat.min (Z.to_nat r) (length db - start))
      by (subst vs; rewrite length_firstn, length_skipn; reflexivity).
    destruct (Nat.eq_dec start (length db)) as [Heq|Hneq].
    + assert (vs = []) as -> by (subst vs start; rewrite skipn_all; apply firstn_nil).
      subst start. rewrite skipn_all, firstn_nil. reflexivity.
    + destruct vs as [|v0 vs0]; [simpl in Hlen; lia|].
      cbv beta iota.
      remember (v0 :: vs0) as vs eqn:Evs. clear v0 vs0 Evs.
      rewrite (yield_page_nocap cap vs (Z.of_nat start) Hc). cbv beta iota.
      destruct (Z.of_nat (length db) <=? Z.of_nat start + Z.of_nat (length vs))%Z eqn:E2.
      * apply Z.leb_le in E2.
        rewrite Hvs, !firstn_all2; [reflexivity| |]; rewrite length_skipn; lia.
      * apply Z.leb_gt in E2.
        rewrite <- Nat2Z.inj_add.
        rewrite IH; [| lia | lia | exact Hkw | intros m' Hm'; discriminate].
        rewrite (firstn_split (skipn start db) (length vs)) by lia.
        assert (Hk : length vs = Z.to_nat r) by lia.
        rewrite Hk, <- Hvs, skipn_skipn.
        unfold NvdClient.cap_limit; rewrite Hc. f_equal. f_equal; [lia|]. f_equal. lia.
Qed.

(** The stream yields the first [cap_limit cap db] records: all of them
    without a cap, [min(cap, len(db))] with a positive cap, and all of them
    with [max_results=0], which [if max_results] treats as no cap. *)
Lemma get_all_cves_stable {A} (db : list A) rpp cap fuel :
  (1 <= rpp)%Z -> (forall m, cap = Some m -> (0 <= m)%Z) -> (length db < fuel)%nat ->
  NvdClient.get_all_cves (NvdClient.stable_upstream db) rpp cap fuel
    = firstn (NvdClient.cap_limit cap db) db.
Proof.
  intros Hrpp Hcap Hfuel. unfold NvdClient.get_all_cves.
  change 0%Z with (Z.of_nat 0).
  rewrite get_all_loop_stable; [rewrite Nat.sub_0_r; reflexivity | exact Hrpp | lia | lia
                               | discriminate |].
  intros m Hm. unfold NvdClient.cap_set in Hm.
  destruct cap as [c|]; [|discriminate].
  specialize (Hcap c eq_refl).
  destruct (c =? 0)%Z eqn:E; [discriminate|]. injection Hm as <-.
  apply Z.eqb_neq in E. lia.
Qed.

(** Claim C2 (code defect): with [max_results=0] the generator does not
    stop at 0 records; [if max_results] treats 0 like [None] and the whole
    upstream set (3 records here) is yielded. *)
Theorem get_all_cves_zero_cap_yields_all :
  NvdClient.get_all_cves (NvdClient.stable_upstream [10; 20; 30]%nat) 2000 (Some 0%Z) 4
    = [10; 20; 30]%nat.
Proof. reflexivity. Qed.

(** ** C4 *)

Local Open Scope list_scope.

Lemma find_row_update_row sid f rs :
  (forall r, SyncService.sr_id (f r) = SyncService.sr_id r) ->
  SyncService.find_row sid (SyncService.update_row sid f rs)
    = option_map f (SyncService.find_row sid rs).
Proof.
  intros Hf. induction rs as [|r rs IH]; [reflexivity|].
  unfold SyncService.find_row, SyncService.update_row in *. simpl.
  destruct (SyncService.sr_id r =? sid)%Z eqn:E; simpl.
  - rewrite Hf, E. reflexivity.
  - rewrite E. exact IH.
Qed.

Lemma run_batch_rows now b e c u e' :
  SyncService.run_batch now b e = (c, u, e') -> SyncService.env_rows e' = SyncService.env_rows e.
Proof.
  unfold SyncService.run_batch.
  destruct (upsert_cves_batch now b (SyncService.env_cves e)) as [[[c0 u0] t']|].
  - intros H. injection H as _ _ <-. reflexivity.
  - intros H. injection H as _ _ <-. reflexivity.
Qed.

Lemma update_sync_status_keeps_row now sid st tot p c u lmd rs :
  SyncService.find_row sid rs <> None ->
  SyncService.find_row sid (SyncService.update_sync_status now sid st tot p c u lmd rs) <> None.
Proof.
  intros H. unfold SyncService.update_sync_status.
  rewrite find_row_update_row by reflexivity.
  destruct (SyncService.find_row sid rs); [discriminate|contradiction].
Qed.

(** The batch loop counts every streamed record as processed once, and
    keeps the run's row. *)
Lemma full_sync_loop_inv now bs sid total items :
  forall p c u b e,
    let '(p', _, _, b', e') := SyncService.full_sync_loop now bs sid total items p c u b e in
    (p' + Z.of_nat (length b') = p + Z.of_nat (length b) + Z.of_nat (length items))%Z /\
    (SyncService.find_row sid (SyncService.env_rows e) <> None ->
     SyncService.find_row sid (SyncService.env_rows e') <> None).
Proof.
  induction items as [|it rest IH]; intros p c u b e; simpl.
  - split; [lia|auto].
  - destruct (bs <=? length (b ++ [it]))%nat.
    + destruct (SyncService.run_batch now (b ++ [it]) e) as [[c0 u0] e0] eqn:Hrb.
      specialize (IH (p + Z.of_nat (length (b ++ [it])))%Z (c + Z.of_nat c0)%Z
                     (u + Z.of_nat u0)%Z []
                     (SyncService.mk_env
                        (SyncService.update_sync_status now sid SyncService.RUNNING total
                           (p + Z.of_nat (length (b ++ [it])))%Z (c + Z.of_nat c0)%Z
                           (u + Z.of_nat u0)%Z None (SyncService.env_rows e0))
                        (SyncService.env_cves e0))).
      destruct (SyncService.full_sync_loop _ _ _ _ _ _ _ _ _ _) as [[[[p' c'] u'] b'] e'].
      destruct IH as [IH1 IH2]. split.
      * rewrite IH1, length_app. simpl. lia.
      * intros H. apply IH2. simpl. apply update_sync_status_keeps_row.
        erewrite run_batch_rows by exact Hrb. exact H.
    + specialize (IH p c u (b ++ [it]) e).
      destruct (SyncService.full_sync_loop _ _ _ _ _ _ _ _ _ _) as [[[[p' c'] u'] b'] e'].
      destruct IH as [IH1 IH2]. split; [|exact IH2].
      rewrite IH1, length_app. simpl. lia.
Qed.

(** Claim C4, counterexample: a full sync at time 500 that processes one
    record last modified at 100 records 500, not 100, as its high-water mark. *)
Lemma full_sync_mark_counterexample :
  let e := SyncService.mk_env [Samples.running_row] Samples.cves0 in
  let e' := SyncService.perform_full_sync 500 1000 1 1 [Samples.item_v1] e in
  option_map SyncService.sr_last_modified_date (SyncService.find_row 1 (SyncService.env_rows e'))
    = Some (Some 500%Z) /\
  SyncService.max_observed_last_modified [Samples.item_v1] = Some 100%Z.
Proof. vm_compute. split; reflexivity. Qed.

(** Claim C4, as amended: when the batch loop of a full sync finishes, the
    run's row gets status [completed], a completion timestamp, the number
    of streamed records as processed count, and the current time [now] as
    high-water mark, whatever last-modified values the records carry. *)
Theorem full_sync_completes_with_now :
  forall now bs sid total items e r0,
    SyncService.find_row sid (SyncService.env_rows e) = Some r0 ->
    exists r,
      SyncService.find_row sid
        (SyncService.env_rows (SyncService.perform_full_sync now bs sid total items e)) = Some r /\
      SyncService.sr_status r = SyncService.COMPLETED /\
      SyncService.sr_completed_at r = Some now /\
      SyncService.sr_last_modified_date r = Some now /\
      SyncService.sr_processed_records r = Z.of_nat (length items).
Proof.
  intros now bs sid total items e r0 Hr0.
  unfold SyncService.perform_full_sync.
  set (e1 := SyncService.mk_env
               (SyncService.update_sync_status now sid SyncService.RUNNING total 0 0 0 None
                  (SyncService.env_rows e)) (SyncService.env_cves e)).
  assert (H1 : SyncService.find_row sid (SyncService.env_rows e1) <> None).
  { apply update_sync_status_keeps_row. rewrite Hr0. discriminate. }
  pose proof (full_sync_loop_inv now bs sid total items 0 0 0 [] e1) as Hinv.
  destruct (SyncService.full_sync_loop _ _ _ _ _ _ _ _ _ _) as [[[[p c] u] b] e2].
  destruct Hinv as [Hcount Hkeep]. specialize (Hkeep H1). simpl in Hcount.
  destruct b as [|x b'].
  - cbn beta iota. cbn [SyncService.env_rows]. unfold SyncService.update_sync_status.
    rewrite find_row_update_row by reflexivity.
    destruct (SyncService.find_row sid (SyncService.env_rows e2)) as [r|]; [|contradiction].
    eexists. split; [reflexivity|]. simpl. repeat split. simpl in Hcount. lia.
  - destruct (SyncService.run_batch now (x :: b') e2) as [[c0 u0] e3] eqn:Hrb.
    cbn beta iota. cbn [SyncService.env_rows]. unfold SyncService.update_sync_status.
    rewrite find_row_update_row by reflexivity.
    rewrite (run_batch_rows _ _ _ _ _ _ Hrb).
    destruct (SyncService.find_row sid (SyncService.env_rows e2)) as [r|]; [|contradiction].
    eexists. split; [reflexivity|]. simpl. repeat split. rewrite <- Hcount. reflexivity.
Qed.

Lemma full_sync_completes_with_now_witness :
  SyncService.find_row 1 (SyncService.env_rows (SyncService.mk_env [Samples.running_row] Samples.cves0))
    = Some Samples.running_row /\
  exists r,
    SyncService.find_row 1
      (SyncService.env_rows (SyncService.perform_full_sync 500 1000 1 1 [Samples.item_v1]
                               (SyncService.mk_env [Samples.running_row] Samples.cves0))) = Some r /\
    SyncService.sr_status r = SyncService.COMPLETED /\
    SyncService.sr_completed_at r = Some 500%Z /\
    SyncService.sr_last_modified_date r = Some 500%Z /\
    SyncService.sr_processed_records r = Z.of_nat (length [Samples.item_v1]).
Proof.
  split; [reflexivity|].
  apply (full_sync_completes_with_now 500 1000 1 1 [Samples.item_v1]
           (SyncService.mk_env [Samples.running_row] Samples.cves0) Samples.running_row).
  reflexivity.
Defined.

(** ** C8 *)

Lemma request_loop_retried max d net :
  forall n a sleeps,
    (1 <= a)%nat -> (n + a = S max)%nat ->
    (forall k, (a <= k <= max)%nat -> NvdClient.retried_failure (net k) = true) ->
    exists msg,
      NvdClient.request_loop max d net n a sleeps
        = (Err NVDAPIError msg,
           sleeps ++ map (fun k => (d * 2 ^ Z.of_nat k)%Z) (seq (a - 1) n), S max).
Proof.
  induction n as [|n IH]; intros a sleeps Ha Hn Hall.
  - simpl. rewrite app_nil_r. eexists; repeat f_equal; try lia.
  - assert (Hnet := Hall a ltac:(lia)).
    cbn [NvdClient.request_loop].
    destruct (0 <? a)%nat eqn:Ea; [|apply Nat.ltb_ge in Ea; lia].
    destruct (a <? max)%nat eqn:Em.
    + apply Nat.ltb_lt in Em.
      destruct (IH (S a) (sleeps ++ [(d * 2 ^ Z.of_nat (a - 1))%Z]) ltac:(lia) ltac:(lia)
                  ltac:(intros k Hk; apply Hall; lia)) as [msg Hmsg].
      exists msg.
      assert (Hseq : seq (a - 1) (S n) = (a - 1)%nat :: seq (S a - 1) n).
      { simpl. f_equal. f_equal. lia. }
      rewrite Hseq. simpl map. rewrite <- app_assoc in Hmsg. simpl in Hmsg.
      destruct (net a) as [st body reset|m|]; simpl in Hnet.
      * apply Z.leb_le in Hnet.
        destruct (st =? 403)%Z eqn:E403; [apply Z.eqb_eq in E403; lia|].
        assert (E400 : (400 <=? st)%Z = true) by (apply Z.leb_le; lia).
        rewrite E400, (proj2 (Z.leb_le 500 st) Hnet). simpl. exact Hmsg.
      * exact Hmsg.
      * exact Hmsg.
    + apply Nat.ltb_ge in Em. assert (n = 0%nat) by lia. subst n.
      assert (a = max) by lia. subst a.
      destruct (net max) as [st body reset|m|]; simpl in Hnet.
      * apply Z.leb_le in Hnet.
        destruct (st =? 403)%Z eqn:E403; [apply Z.eqb_eq in E403; lia|].
        assert (E400 : (400 <=? st)%Z = true) by (apply Z.leb_le; lia).
        rewrite E400, (proj2 (Z.leb_le 500 st) Hnet). simpl.
        eexists; repeat f_equal; try lia.
      * eexists; repeat f_equal; try lia.
      * eexists; repeat f_equal; try lia.
Qed.

Lemma request_loop_rate_limited max d net :
  forall n a sleeps,
    (a <= max)%nat -> (n + a = S max)%nat ->
    (forall k, (a <= k <= max)%nat -> NvdClient.rate_limited (net k) = true) ->
    exists msg sl,
      NvdClient.request_loop max d net n a sleeps = (Err RateLimitError msg, sl, S max).
Proof.
  induction n as [|n IH]; intros a sleeps Ha Hn Hall; [lia|].
  assert (Hnet := Hall a ltac:(lia)).
  cbn [NvdClient.request_loop].
  destruct (net a) as [st body reset|m|]; simpl in Hnet; try discriminate.
  rewrite Hnet.
  destruct (a <? max)%nat eqn:Em.
  - apply Nat.ltb_lt in Em. apply IH; [lia|lia|]. intros k Hk. apply Hall. lia.
  - apply Nat.ltb_ge in Em. assert (a = max) by lia. subst a. eexists. eexists. reflexivity.
Qed.

Lemma request_loop_first_retry max d net n :
  (0 < max)%nat -> NvdClient.retried_failure (net 0%nat) = true ->
  NvdClient.request_loop max d net (S n) 0 [] = NvdClient.request_loop max d net n 1 [].
Proof.
  intros Hmax Hnet. cbn [NvdClient.request_loop].
  assert (Hlt : (0 <? max)%nat = true) by (apply Nat.ltb_lt; exact Hmax).
  destruct (net 0%nat) as [st body reset|m|]; simpl in Hnet; simpl; rewrite ?Hlt; [|reflexivity|reflexivity].
  apply Z.leb_le in Hnet.
  destruct (st =? 403)%Z eqn:E403; [apply Z.eqb_eq in E403; lia|].
  assert (E400 : (400 <=? st)%Z = true) by (apply Z.leb_le; lia).
  rewrite E400, (proj2 (Z.leb_le 500 st) Hnet). reflexivity.
Qed.

(** Claim C8, counterexample: exhausting the retries on network errors and
    exhausting them on timeouts raise the same exception class. *)
Lemma make_request_network_timeout_same_class :
  NvdClient.error_class (NvdClient.make_request 3 1 (fun _ => NvdClient.NetworkError "reset"))
    = Some NVDAPIError /\
  NvdClient.error_class (NvdClient.make_request 3 1 (fun _ => NvdClient.Timeout))
    = Some NVDAPIError.
Proof. split; reflexivity. Qed.

Lemma request_loop_reach max d net j :
  (j <= max)%nat ->
  (forall k, (k < j)%nat ->
     NvdClient.retried_failure (net k) || NvdClient.rate_limited (net k) = true) ->
  forall n a sleeps, (a <= j)%nat -> (n + a = S max)%nat ->
    NvdClient.request_loop max d net n a sleeps
    = NvdClient.request_loop max d net (n - (j - a)) j
        (sleeps ++ concat (map (NvdClient.attempt_sleeps d net) (seq a (j - a)))).
Proof.
  intros Hj Hret. induction n as [|n IH]; intros a sleeps Ha Hna; [lia|].
  destruct (Nat.eq_dec a j) as [->|Hne].
  - rewrite Nat.sub_diag, Nat.sub_0_r. cbn [seq map concat]. rewrite app_nil_r. reflexivity.
  - assert (Hlt : (a < j)%nat) by lia.
    assert (Em : (a <? max)%nat = true) by (apply Nat.ltb_lt; lia).
    assert (Hseq : seq a (j - a) = a :: seq (S a) (j - S a)).
    { replace (j - a)%nat with (S (j - S a)) by lia. reflexivity. }
    replace (S n - (j - a))%nat with (n - (j - S a))%nat by lia.
    rewrite Hseq. cbn [map concat].
    specialize (Hret a Hlt).
    unfold NvdClient.attempt_sleeps, NvdClient.top_sleep.
    cbn [NvdClient.request_loop]. rewrite Em.
    destruct (net a) as [st body reset|m|];
      cbn [NvdClient.retried_failure NvdClient.rate_limited] in Hret |- *.
    + destruct (st =? 403)%Z eqn:E403.
      * rewrite IH by lia.
        destruct (0 <? a)%nat, reset; cbn [NvdClient.reset_delay];
          rewrite <- ?app_assoc; reflexivity.
      * rewrite orb_false_r in Hret. apply Z.leb_le in Hret.
        rewrite (proj2 (Z.leb_le 400 st)) by lia.
        rewrite (proj2 (Z.leb_le 500 st) Hret). cbn [andb].
        rewrite IH by lia.
        destruct (0 <? a)%nat; rewrite <- ?app_assoc, ?app_nil_r; reflexivity.
    + rewrite IH by lia.
      destruct (0 <? a)%nat; rewrite <- ?app_assoc, ?app_nil_r; reflexivity.
    + rewrite IH by lia.
      destruct (0 <? a)%nat; rewrite <- ?app_assoc, ?app_nil_r; reflexivity.
Qed.

Lemma request_loop_client_error max d net j n sleeps st body reset :
  net j = NvdClient.Response st body reset -> (400 <= st < 500)%Z -> st <> 403%Z ->
  NvdClient.request_loop max d net (S n) j sleeps
  = (Err NVDAPIError ("HTTP " ++ Listing.z_to_dec st ++ ": " ++ body)%string,
     sleeps ++ NvdClient.top_sleep d j, S j).
Proof.
  intros Hj Hst H403. cbn [NvdClient.request_loop]. rewrite Hj.
  apply Z.eqb_neq in H403. rewrite H403.
  rewrite (proj2 (Z.leb_le 400 st)) by lia.
  rewrite (proj2 (Z.leb_gt 500 st)) by lia. cbn [andb].
  unfold NvdClient.top_sleep. destruct (0 <? j)%nat; rewrite ?app_nil_r; reflexivity.
Qed.

Lemma sleeps_before_backoff d net j :
  (forall k, (k < j)%nat -> NvdClient.rate_limited (net k) = false) ->
  NvdClient.sleeps_before d net j = NvdClient.backoff_delays d j.
Proof.
  unfold NvdClient.sleeps_before, NvdClient.backoff_delays.
  induction j as [|j IH]; intros Hno; [reflexivity|].
  assert (Hatt : NvdClient.attempt_sleeps d net j = NvdClient.top_sleep d j).
  { unfold NvdClient.attempt_sleeps. rewrite (Hno j ltac:(lia)). apply app_nil_r. }
  assert (Htop : NvdClient.top_sleep d (S j) = [(d * 2 ^ Z.of_nat j)%Z]).
  { unfold NvdClient.top_sleep. cbn [Nat.ltb Nat.leb]. replace (S j - 1)%nat with j by lia. reflexivity. }
  rewrite !seq_S, !map_app, concat_app. cbn [map concat]. rewrite app_nil_r.
  cbn [Nat.add]. rewrite Hatt, IH by (intros k Hk; apply Hno; lia).
  rewrite Htop. reflexivity.
Qed.

(** Claim C8, as amended: a 4xx response other than 403 fails at once
    with [NVDAPIError "HTTP <status>: <body>"], whatever attempt [j] it
    arrives at after retried ones: no further attempt is made and no
    sleep follows it, the sleeps being those of the earlier retries (the
    backoff [d, 2d, ..., 2^(j-1) d] when none of them was rate-limited);
    when every attempt fails with a 5xx, a network error or a timeout,
    the request is tried [max_retries + 1] times with backoff delays
    [d * 2^k] before the retries and ends in [NVDAPIError] (the same class
    for all three causes); when every attempt is rate-limited (403) it is
    tried [max_retries + 1] times and ends in [RateLimitError]. *)
Theorem make_request_error_handling :
  forall max d net,
    (forall j st body reset,
       (j <= max)%nat ->
       (forall k, (k < j)%nat ->
          NvdClient.retried_failure (net k) || NvdClient.rate_limited (net k) = true) ->
       net j = NvdClient.Response st body reset ->
       (400 <= st < 500)%Z -> st <> 403%Z ->
       NvdClient.make_request max d net
         = (Err NVDAPIError ("HTTP " ++ Listing.z_to_dec st ++ ": " ++ body)%string,
            NvdClient.sleeps_before d net j, S j) /\
       ((forall k, (k < j)%nat -> NvdClient.rate_limited (net k) = false) ->
          NvdClient.sleeps_before d net j = NvdClient.backoff_delays d j)) /\
    ((forall k, (k <= max)%nat -> NvdClient.retried_failure (net k) = true) ->
       snd (NvdClient.make_request max d net) = S max /\
       snd (fst (NvdClient.make_request max d net)) = NvdClient.backoff_delays d max /\
       NvdClient.error_class (NvdClient.make_request max d net) = Some NVDAPIError) /\
    ((forall k, (k <= max)%nat -> NvdClient.rate_limited (net k) = true) ->
       snd (NvdClient.make_request max d net) = S max /\
       NvdClient.error_class (NvdClient.make_request max d net) = Some RateLimitError).
Proof.
  intros max d net. split; [|split].
  - intros j st body reset Hjm Hret Hj Hst H403. split.
    + unfold NvdClient.make_request.
      rewrite (request_loop_reach max d net j Hjm Hret (S max) 0 [] ltac:(lia) ltac:(lia)).
      replace (S max - (j - 0))%nat with (S (max - j)) by lia.
      rewrite (request_loop_client_error max d net j (max - j) _ st body reset Hj Hst H403).
      rewrite Nat.sub_0_r. reflexivity.
    + apply sleeps_before_backoff.
  - intros Hall. unfold NvdClient.make_request.
    destruct max as [|max'].
    + assert (Hnet := Hall 0%nat ltac:(lia)). cbn [NvdClient.request_loop].
      destruct (net 0%nat) as [st body reset|m|]; simpl in Hnet; simpl; [|auto|auto].
      apply Z.leb_le in Hnet.
      destruct (st =? 403)%Z eqn:E403; [apply Z.eqb_eq in E403; lia|].
      assert (E400 : (400 <=? st)%Z = true) by (apply Z.leb_le; lia).
      rewrite E400, (proj2 (Z.leb_le 500 st) Hnet). simpl. auto.
    + assert (Hnet := Hall 0%nat ltac:(lia)).
      destruct (request_loop_retried (S max') d net (S max') 1 [] ltac:(lia) ltac:(lia)
                  ltac:(intros k Hk; apply Hall; lia)) as [msg Hmsg].
      rewrite (request_loop_first_retry (S max') d net (S max') ltac:(lia) Hnet), Hmsg.
      simpl. auto.
  - intros Hall. unfold NvdClient.make_request.
    destruct (request_loop_rate_limited max d net (S max) 0 [] ltac:(lia) ltac:(lia)
                ltac:(intros k Hk; apply Hall; lia)) as [msg [sl Hmsg]].
    rewrite Hmsg. simpl. auto.
Qed.

(** Rate-limited with a reset of 7 s, then a 503, then a 404: the 404 ends
    the request at the third attempt, after the sleeps 7, 1 and 2. *)
Lemma make_request_error_handling_witness :
  NvdClient.make_request 3 1
    (fun k => match k with
              | O => NvdClient.Response 403 "slow down" (Some 7%Z)
              | 1%nat => NvdClient.Response 503 "unavailable" None
              | _ => NvdClient.Response 404 "not found" None
              end)
    = (Err NVDAPIError "HTTP 404: not found", [7%Z; 1%Z; 2%Z], 3%nat).
Proof.
  destruct (make_request_error_handling 3 1
              (fun k => match k with
                        | O => NvdClient.Response 403 "slow down" (Some 7%Z)
                        | 1%nat => NvdClient.Response 503 "unavailable" None
                        | _ => NvdClient.Response 404 "not found" None
                        end)) as [Hclient _].
  destruct (Hclient 2%nat 404%Z "not found" None ltac:(lia)
              ltac:(intros k Hk; destruct k as [|[|k]]; [reflexivity|reflexivity|lia])
              eq_refl ltac:(lia) ltac:(discriminate)) as [H _].
  rewrite H. reflexivity.
Defined.

(** ** C10 *)

Lemma upsert_batch_loop_trace now :
  forall items t created updated,
    upsert_batch_loop now items created updated t
      = Ok ((created + count_outcome (Some true) (fst (upsert_trace now items t)),
             updated + count_outcome (Some false) (fst (upsert_trace now items t))),
            snd (upsert_trace now items t)).
Proof.
  induction items as [|it rest IH]; intros t created updated.
  - simpl. rewrite !Nat.add_0_r. reflexivity.
  - simpl. destruct (upsert_cve_from_nvd now it t) as [[[id b] t']|e msg].
    + destruct b; rewrite IH; destruct (upsert_trace now rest t') as [tr tf];
        unfold count_outcome; simpl; f_equal; f_equal; f_equal; lia.
    + rewrite IH. destruct (upsert_trace now rest t) as [tr tf].
      unfold count_outcome; simpl. reflexivity.
Qed.

Lemma upsert_trace_length now :
  forall items t,
    length items = count_outcome (Some true) (fst (upsert_trace now items t))
                   + count_outcome (Some false) (fst (upsert_trace now items t))
                   + count_outcome None (fst (upsert_trace now items t)).
Proof.
  induction items as [|it rest IH]; intros t; [reflexivity|].
  simpl. destruct (upsert_cve_from_nvd now it t) as [[[id b] t']|e msg].
  - specialize (IH t'). destruct (upsert_trace now rest t') as [tr tf].
    unfold count_outcome in *; simpl in *. destruct b; simpl; lia.
  - specialize (IH t). destruct (upsert_trace now rest t) as [tr tf].
    unfold count_outcome in *; simpl in *. lia.
Qed.

(** Claim C10, counterexample: a batch of one item whose identifier fails
    validation is processed (it counts in [processed_records]) but is
    neither created nor updated, so [updated] is 0, not [1 - 0]. *)
Lemma upsert_batch_failed_item_counterexample :
  upsert_cves_batch 0 [Samples.item_bad_id] Samples.cves0 = Ok ((0, 0)%nat, Samples.cves0).
Proof. reflexivity. Qed.

(** Claim C10, as amended: the batch returns [(created, updated)] where
    [created] counts the items whose upsert created a row and [updated]
    counts every item whose upsert returned without creating, whether or
    not it wrote anything; items whose upsert raised are skipped, so
    [created + updated + failed] is the batch length and [updated] is
    processed minus created minus failed. An item for a stored CVE whose
    incoming last-modified is not newer leaves the table unchanged and is
    still reported as not created, hence counted as updated. *)
Theorem upsert_batch_counts_noop :
  (forall now items t,
     upsert_cves_batch now items t
       = Ok ((count_outcome (Some true) (fst (upsert_trace now items t)),
              count_outcome (Some false) (fst (upsert_trace now items t))),
             snd (upsert_trace now items t)) /\
     count_outcome (Some false) (fst (upsert_trace now items t))
       = length items - count_outcome (Some true) (fst (upsert_trace now items t))
                      - count_outcome None (fst (upsert_trace now items t))) /\
  (forall now it c r new_lm old_lm t,
     process_nvd_item it = Ok c ->
     get_cve_by_id c.(cve_id) t = Ok (Some r, t) ->
     c.(last_modified) = Some new_lm ->
     row_last_modified r = Some old_lm ->
     (new_lm <= old_lm)%Z ->
     upsert_cve_from_nvd now it t = Ok ((c.(cve_id), false), t) /\
     upsert_cves_batch now [it] t = Ok ((0, 1)%nat, t)).
Proof.
  split.
  - intros now items t. split.
    + unfold upsert_cves_batch. rewrite upsert_batch_loop_trace. reflexivity.
    + pose proof (upsert_trace_length now items t). lia.
  - intros now it c r new_lm old_lm t Hp Hg Hnew Hold Hle.
    assert (Hu : upsert_cve_from_nvd now it t = Ok ((c.(cve_id), false), t)).
    { unfold upsert_cve_from_nvd, bind, lift. rewrite Hp, Hg, Hnew, Hold.
      destruct (old_lm <? new_lm)%Z eqn:E; [apply Z.ltb_lt in E; lia|]. reflexivity. }
    split; [exact Hu|].
    unfold upsert_cves_batch. simpl. rewrite Hu. reflexivity.
Qed.

Lemma upsert_batch_counts_noop_witness :
  upsert_cves_batch 20 [Samples.item_v1] Samples.cves1 = Ok ((0, 1)%nat, Samples.cves1).
Proof.
  destruct upsert_batch_counts_noop as [_ Hnoop].
  eapply (Hnoop 20%Z Samples.item_v1 _ _ 100%Z 100%Z Samples.cves1);
    [reflexivity | reflexivity | reflexivity | reflexivity | lia].
Defined.

(* ================================================================== *)
(** * Further properties of the service *)

(** ** Rows: reads after writes *)

Lemma get_put_same c v r : get c (put c v r) = v.
Proof.
  induction r as [|[k w] r IH]; simpl.
  - rewrite String.eqb_refl. reflexivity.
  - destruct (String.eqb k c) eqn:E; simpl; rewrite E; [reflexivity|exact IH].
Qed.

Lemma get_put_other c k v r : k <> c -> get c (put k v r) = get c r.
Proof.
  intros Hne. induction r as [|[k' w] r IH]; simpl.
  - destruct (String.eqb k c) eqn:E; [apply String.eqb_eq in E; contradiction|reflexivity].
  - destruct (String.eqb k' k) eqn:E1; simpl.
    + apply String.eqb_eq in E1; subst k'.
      destruct (String.eqb k c) eqn:E2; [apply String.eqb_eq in E2; contradiction|reflexivity].
    + destruct (String.eqb k' c); [reflexivity|exact IH].
Qed.

Lemma get_put_all_notin c data r :
  ~ In c (map fst data) -> get c (put_all data r) = get c r.
Proof.
  unfold put_all. revert r.
  induction data as [|[k v] d IH]; intros r H; simpl in *; [reflexivity|].
  rewrite IH by tauto. apply get_put_other. intros ->. tauto.
Qed.

Lemma get_put_all_in c v data r :
  NoDup (map fst data) -> In (c, v) data -> get c (put_all data r) = v.
Proof.
  unfold put_all. revert r.
  induction data as [|[k w] d IH]; intros r Hnd Hin; simpl in *; [contradiction|].
  inversion Hnd as [|? ? Hk Hnd']; subst.
  destruct Hin as [Heq|Hin].
  - injection Heq as -> ->. fold (put_all d (put c v r)).
    rewrite get_put_all_notin by assumption. apply get_put_same.
  - apply IH; assumption.
Qed.

Lemma filter_nil_forallb {A} (f : A -> bool) l :
  filter f l = [] -> forallb (fun x => negb (f x)) l = true.
Proof.
  induction l as [|x l IH]; simpl; [reflexivity|].
  destruct (f x); [discriminate|]. simpl. exact IH.
Qed.

Lemma matching_prefix s : matches_cve_pattern s = true -> String.prefix "CVE-" s = true.
Proof.
  destruct s as [|c1 [|c2 [|c3 [|c4 [|d1 [|d2 [|d3 [|d4 [|c5 r]]]]]]]]];
    simpl; try discriminate.
  intros H. repeat (apply andb_prop in H as [H ?]).
  repeat match goal with
  | Hc : Ascii.eqb ?c _ = true |- _ => apply Ascii.eqb_eq in Hc; subst c
  end.
  reflexivity.
Qed.

Lemma validate_matching s : matches_cve_pattern s = true -> validate_cve_id s = Ok s.
Proof.
  intros H. unfold validate_cve_id. rewrite H, matching_prefix by exact H. simpl.
  rewrite upper_of_matching by exact H. reflexivity.
Qed.

Lemma insert_known_columns c t :
  schema t = cves_schema -> known_columns t (insert_data c) = true.
Proof. intros H. unfold known_columns. rewrite H. reflexivity. Qed.

Lemma insert_fresh now data t :
  known_columns t data = true ->
  filter (fun r => value_eqb (get "cve_id" r) (get "cve_id" data)) t.(rows) = [] ->
  insert now data t
  = Ok (put_all data [("id", VInt t.(next_id)); ("created_at", VTime now);
                      ("updated_at", VTime now)],
        mk_table t.(schema)
          (t.(rows) ++ [put_all data [("id", VInt t.(next_id)); ("created_at", VTime now);
                                      ("updated_at", VTime now)]])
          (t.(next_id) + 1)).
Proof.
  intros Hk Hf. unfold insert. rewrite Hk, (filter_nil_forallb _ _ Hf). reflexivity.
Qed.

(** ** [POST /cves/] then [GET /cves/{cve_id}] *)

(** Creating a CVE through the API and reading it back by its identifier
    returns the created row, and [_row_to_cve_response] reads back every
    field that was written, [references] included; a zero score reads back
    as NULL. *)
Theorem create_then_get_round_trip :
  forall now c t,
    schema t = cves_schema ->
    matches_cve_pattern c.(cve_id) = true ->
    score_ok c.(cvss_v2_score) && score_ok c.(cvss_v3_score) = true ->
    select_eq "cve_id" (VStr c.(cve_id)) t = [] ->
    exists r t',
      Api.create_cve now c t = (Api.Http201 r, t') /\
      Api.get_cve c.(cve_id) t' = Api.Resp200 r /\
      row_to_cve_response r
        = Some (mk_cve_response (VInt t.(next_id)) (VStr c.(cve_id))
                  (of_str c.(source_identifier)) (of_str c.(vuln_status))
                  (of_time c.(published)) (of_time c.(last_modified))
                  (of_str c.(description)) (of_score c.(cvss_v2_score))
                  (of_score c.(cvss_v3_score)) (of_str c.(cvss_v2_vector))
                  (of_str c.(cvss_v3_vector)) (of_str c.(cvss_v2_severity))
                  (of_str c.(cvss_v3_severity)) (of_json c.(cpe_configurations))
                  (of_json c.(references)) (of_json c.(weaknesses))
                  (of_json c.(configurations)) (VTime now) (VTime now)).
Proof.
  intros now c t Hs Hpat Hsc Hnone.
  pose proof (insert_known_columns c t Hs) as Hk.
  destruct c as [id src vs pub lm desc v2 v3 v2v v3v v2s v3s cpe refs weak conf raw].
  cbn [cve_id source_identifier vuln_status published last_modified description
       cvss_v2_score cvss_v3_score cvss_v2_vector cvss_v3_vector cvss_v2_severity
       cvss_v3_severity cpe_configurations references weaknesses configurations raw_data]
    in Hpat, Hsc, Hnone |- *.
  unfold Api.create_cve.
  cbn [cve_id source_identifier vuln_status published last_modified description
       cvss_v2_score cvss_v3_score cvss_v2_vector cvss_v3_vector cvss_v2_severity
       cvss_v3_severity cpe_configurations references weaknesses configurations raw_data].
  rewrite (validate_matching id Hpat), Hsc.
  cbv beta iota delta [negb].
  unfold CveService.create_cve. rewrite insert_fresh by first [exact Hk | exact Hnone].
  eexists. eexists. split; [reflexivity|]. split.
  - unfold Api.get_cve. rewrite Hpat. cbv beta iota delta [negb].
    rewrite (upper_of_matching id Hpat).
    unfold get_cve_by_id, gets, select_eq. cbn [rows]. rewrite filter_app.
    unfold select_eq in Hnone. rewrite Hnone. cbn. rewrite String.eqb_refl. reflexivity.
  - reflexivity.
Qed.


(** ** [POST /cves/] on an existing identifier *)


Lemma create_then_get_round_trip_witness :
  exists r t',
    Api.create_cve 10 Samples.new_cve Samples.cves0 = (Api.Http201 r, t') /\
    Api.get_cve "CVE-2024-12345" t' = Api.Resp200 r.
Proof.
  destruct (create_then_get_round_trip 10 Samples.new_cve Samples.cves0
              eq_refl eq_refl eq_refl eq_refl) as (r & t' & H1 & H2 & _).
  exists r, t'. split; assumption.
Defined.




(** ** [PUT /cves/{cve_id}] *)

(** A PUT body that sets [references] names a column the table does not
    have ([cve_references]): PostgREST rejects it, [update_cve] swallows the
    error and returns [None], and the endpoint answers 404, writing nothing,
    whether or not the CVE exists. *)
Theorem update_with_references_is_404 :
  forall now path data v t,
    schema t = cves_schema ->
    In ("references", v) data ->
    Api.update_cve now path data t = (Api.Http404, t).
Proof.
  intros now path data v t Hs Hin.
  unfold Api.update_cve, update_cve_entry.
  destruct data as [|kv data']; [contradiction|].
  rewrite (update_cve_unknown_column now (upper path) (kv :: data') t "references" v Hin).
  - reflexivity.
  - rewrite Hs. simpl. intros H. repeat destruct H as [H|H]; try discriminate H. exact H.
Qed.

Lemma update_with_references_is_404_witness :
  Api.update_cve 20 "CVE-2023-0001" [("references", VJson 7)] Samples.cves1
  = (Api.Http404, Samples.cves1).
Proof.
  apply (update_with_references_is_404 20 "CVE-2023-0001" [("references", VJson 7)]
           (VJson 7) Samples.cves1); [reflexivity | left; reflexivity].
Defined.

Lemma known_columns_app t d1 d2 :
  known_columns t (d1 ++ d2) = known_columns t d1 && known_columns t d2.
Proof. unfold known_columns. apply forallb_app. Qed.

Lemma known_columns_schema t data :
  schema t = cves_schema ->
  Forall (fun kv => In (fst kv) cves_schema) data ->
  known_columns t data = true.
Proof.
  intros Hs Hall. unfold known_columns. rewrite Hs. apply forallb_forall.
  intros kv Hin. apply existsb_exists. exists (fst kv). split.
  - exact (proj1 (Forall_forall _ _) Hall kv Hin).
  - apply String.eqb_refl.
Qed.

Lemma filter_map_update col v data rs :
  ~ In col (map fst data) ->
  filter (fun r => value_eqb (get col r) v)
    (map (fun r => if value_eqb (get col r) v then put_all data r else r) rs)
  = map (put_all data) (filter (fun r => value_eqb (get col r) v) rs).
Proof.
  intros Hn. induction rs as [|r rs IH]; simpl; [reflexivity|].
  destruct (value_eqb (get col r) v) eqn:E; simpl.
  - rewrite get_put_all_notin by exact Hn. rewrite E, IH. reflexivity.
  - rewrite E. exact IH.
Qed.

Lemma map_update_none col v data rs :
  filter (fun r => value_eqb (get col r) v) rs = [] ->
  map (fun r => if value_eqb (get col r) v then put_all data r else r) rs = rs.
Proof.
  induction rs as [|r rs IH]; simpl; [reflexivity|].
  destruct (value_eqb (get col r) v); [discriminate|]. intros H. rewrite IH by exact H.
  reflexivity.
Qed.

(** [PUT /cves/{cve_id}] with a non-empty body of distinct fields of the
    table (other than [cve_id] and [updated_at]) on a stored CVE answers
    200 with the first matching row: the body's fields hold the new values,
    [updated_at] is the current time, every other column keeps its old
    value, and a later lookup of the identifier returns that row. *)
Theorem update_existing_cve :
  forall now path data t r0 rest,
    schema t = cves_schema ->
    data <> [] ->
    NoDup (map fst data) ->
    Forall (fun kv => In (fst kv) cves_schema /\ fst kv <> "cve_id"
                      /\ fst kv <> "updated_at") data ->
    select_eq "cve_id" (VStr (upper path)) t = r0 :: rest ->
    exists r t',
      Api.update_cve now path data t = (Api.Http200 r, t') /\
      (forall c v, In (c, v) data -> get c r = v) /\
      get "updated_at" r = VTime now /\
      (forall c, ~ In c (map fst data) -> c <> "updated_at" -> get c r = get c r0) /\
      get_cve_by_id (upper path) t' = Ok (Some r, t').
Proof.
  intros now path data t r0 rest Hs Hne Hnd Hall Hsel.
  set (data' := data ++ [("updated_at", VTime now)]).
  assert (Hfst : map fst data' = map fst data ++ ["updated_at"])
    by (unfold data'; rewrite map_app; reflexivity).
  assert (Hnu : ~ In "updated_at" (map fst data)).
  { intros Hin. apply in_map_iff in Hin as [kv [Hk Hin]].
    apply (proj1 (Forall_forall _ _) Hall) in Hin. tauto. }
  assert (Hnc : ~ In "cve_id" (map fst data')).
  { rewrite Hfst. intros Hin. apply in_app_or in Hin as [Hin|[Hin|[]]]; [|discriminate].
    apply in_map_iff in Hin as [kv [Hk Hin]].
    apply (proj1 (Forall_forall _ _) Hall) in Hin. tauto. }
  assert (Hnd' : NoDup (map fst data')).
  { rewrite Hfst. apply NoDup_app; [exact Hnd|constructor; [intros []|constructor]|].
    intros x Hx [<-|[]]. exact (Hnu Hx). }
  assert (Hk : known_columns t data' = true).
  { unfold data'. rewrite known_columns_app, (known_columns_schema t data Hs).
    - unfold known_columns. rewrite Hs. reflexivity.
    - eapply Forall_impl; [|exact Hall]. simpl. tauto. }
  unfold Api.update_cve, update_cve_entry.
  destruct data as [|kv0 d0]; [contradiction|].
  unfold update_cve, catch, update_eq. fold data'. rewrite Hk. cbn [negb].
  rewrite Hsel. cbn [map hd_error].
  eexists. eexists. split; [reflexivity|].
  repeat split.
  - intros c v Hin. apply get_put_all_in; [exact Hnd'|]. unfold data'.
    apply in_or_app. left. exact Hin.
  - apply get_put_all_in; [exact Hnd'|]. unfold data'. apply in_or_app. right. left.
    reflexivity.
  - intros c Hc Hcu. apply get_put_all_notin. rewrite Hfst. intros Hin.
    apply in_app_or in Hin as [Hin|[Heq|[]]]; [exact (Hc Hin)|exact (Hcu (eq_sym Heq))].
  - unfold get_cve_by_id, gets, select_eq. cbn [rows].
    rewrite filter_map_update by exact Hnc.
    unfold select_eq in Hsel. rewrite Hsel. reflexivity.
Qed.

(** [PUT /cves/{cve_id}] with a body of fields of the table on an
    identifier that is not stored answers 404 and writes nothing. *)
Theorem update_missing_cve_is_404 :
  forall now path data t,
    schema t = cves_schema ->
    Forall (fun kv => In (fst kv) cves_schema) data ->
    select_eq "cve_id" (VStr (upper path)) t = [] ->
    Api.update_cve now path data t = (Api.Http404, t).
Proof.
  intros now path data t Hs Hall Hsel.
  unfold Api.update_cve, update_cve_entry.
  destruct data as [|kv0 d0].
  - unfold get_cve_by_id, gets. rewrite Hsel. reflexivity.
  - unfold update_cve, catch, update_eq.
    rewrite known_columns_app, (known_columns_schema t _ Hs Hall).
    replace (known_columns t [("updated_at", VTime now)]) with true
      by (unfold known_columns; rewrite Hs; reflexivity).
    cbn [negb andb].
    rewrite Hsel. cbn [map hd_error].
    unfold select_eq in Hsel. rewrite map_update_none by exact Hsel.
    destruct t. reflexivity.
Qed.

Lemma update_existing_cve_witness :
  exists r t',
    Api.update_cve 20 "cve-2023-0001" [("description", VStr "Patched")] Samples.cves1
    = (Api.Http200 r, t') /\ get "description" r = VStr "Patched" /\
    get "updated_at" r = VTime 20.
Proof.
  destruct (update_existing_cve 20 "cve-2023-0001" [("description", VStr "Patched")]
              Samples.cves1 _ _ eq_refl ltac:(discriminate)
              ltac:(repeat constructor; simpl; tauto)
              ltac:(constructor; [|constructor];
                    split; [simpl; repeat (first [left; reflexivity | right])
                           | split; discriminate])
              eq_refl) as (r & t' & H1 & H2 & H3 & _).
  exists r, t'. split; [exact H1|]. split; [apply H2; left; reflexivity|exact H3].
Defined.

Lemma update_missing_cve_is_404_witness :
  Api.update_cve 20 "CVE-2099-0001" [("description", VStr "x")] Samples.cves1
  = (Api.Http404, Samples.cves1).
Proof.
  apply update_missing_cve_is_404.
  - reflexivity.
  - constructor; [|constructor]. simpl. repeat (first [left; reflexivity | right]).
  - vm_compute. reflexivity.
Defined.

Lemma filter_filter_negb_nil_aux {A} (f : A -> bool) l :
  filter f (filter (fun x => negb (f x)) l) = [].
Proof.
  induction l as [|x l IH]; simpl; [reflexivity|].
  destruct (f x) eqn:E; simpl; [exact IH|]. rewrite E. exact IH.
Qed.

(** ** [DELETE /cves/{cve_id}] *)

(** [DELETE /cves/{cve_id}] removes every row whose [cve_id] is the
    upper-cased path and keeps every other row; it answers 204 when it
    removed a row and 404 otherwise, and a later GET of the same path
    finds nothing. *)
Theorem delete_then_get_not_found :
  forall path t resp t',
    Api.delete_cve path t = (resp, t') ->
    (resp = Api.Http204 /\ select_eq "cve_id" (VStr (upper path)) t <> []
     \/ resp = Api.Http404 /\ select_eq "cve_id" (VStr (upper path)) t = []) /\
    (forall r, In r t'.(rows) <->
               In r t.(rows) /\ get "cve_id" r <> VStr (upper path)) /\
    t'.(schema) = t.(schema) /\
    (forall r, Api.get_cve path t' <> Api.Resp200 r).
Proof.
  intros path t resp t' H.
  unfold Api.delete_cve, CveService.delete_cve, delete_eq in H.
  assert (Hrows : forall r, In r (filter (fun r => negb (value_eqb (get "cve_id" r)
                                       (VStr (upper path)))) (rows t))
                  <-> In r (rows t) /\ get "cve_id" r <> VStr (upper path)).
  { intros r. rewrite filter_In. destruct (get "cve_id" r) eqn:E; simpl;
      try (split; [intros [? _]; split; [assumption|discriminate]
                  |intros [? _]; split; [assumption|reflexivity]]).
    destruct (String.eqb s (upper path)) eqn:Es; simpl.
    - apply String.eqb_eq in Es. subst s. split; [intros [_ Hf]; discriminate Hf|intros [_ Hn]; now elim Hn].
    - apply String.eqb_neq in Es. split; intros [Hi _]; split; try assumption.
      + congruence.
      + reflexivity. }
  assert (Hnone : select_eq "cve_id" (VStr (upper path))
                    (mk_table (schema t) (filter (fun r => negb (value_eqb (get "cve_id" r)
                       (VStr (upper path)))) (rows t)) (next_id t)) = []).
  { unfold select_eq. cbn [rows]. rewrite filter_filter_negb_nil_aux. reflexivity. }
  destruct (select_eq "cve_id" (VStr (upper path)) t) as [|r0 rs] eqn:Esel;
    injection H as <- <-; cbn [rows schema].
  - split; [right; split; reflexivity|]. split; [exact Hrows|]. split; [reflexivity|].
    intros r. unfold Api.get_cve. destruct (negb _); [discriminate|].
    unfold get_cve_by_id, gets. rewrite Hnone. discriminate.
  - split; [left; split; [reflexivity|discriminate]|]. split; [exact Hrows|].
    split; [reflexivity|].
    intros r. unfold Api.get_cve. destruct (negb _); [discriminate|].
    unfold get_cve_by_id, gets. rewrite Hnone. discriminate.
Qed.

Lemma delete_then_get_not_found_witness :
  fst (Api.delete_cve "cve-2023-0001" Samples.cves1) = Api.Http204 /\
  select_eq "cve_id" (VStr "CVE-2023-0001") Samples.cves1 <> [].
Proof.
  destruct (delete_then_get_not_found "cve-2023-0001" Samples.cves1
              (fst (Api.delete_cve "cve-2023-0001" Samples.cves1))
              (snd (Api.delete_cve "cve-2023-0001" Samples.cves1)) eq_refl)
    as [[[H1 H2]|[_ H2]] _].
  - split; [exact H1|exact H2].
  - exfalso. vm_compute in H2. discriminate H2.
Defined.

(** ** NVD field extraction *)

Lemma lstrip_idem s : lstrip (lstrip s) = lstrip s.
Proof.
  induction s as [|c r IH]; simpl; [reflexivity|].
  destruct (is_space c) eqn:E; [exact IH|]. simpl. rewrite E. reflexivity.
Qed.

Lemma rstrip_idem s : rstrip (rstrip s) = rstrip s.
Proof.
  induction s as [|c r IH]; simpl; [reflexivity|].
  destruct (is_space c && String.eqb (rstrip r) "") eqn:E; [reflexivity|].
  simpl. rewrite IH, E. reflexivity.
Qed.

Lemma rstrip_lstrip z : rstrip z = z -> rstrip (lstrip z) = lstrip z.
Proof.
  induction z as [|c r IH]; simpl; [reflexivity|].
  destruct (is_space c && String.eqb (rstrip r) "") eqn:E; [discriminate|].
  intros H. injection H as Hr.
  destruct (is_space c) eqn:Ec.
  - exact (IH Hr).
  - simpl. rewrite Ec. simpl. rewrite Hr. reflexivity.
Qed.

Lemma strip_idem s : strip (strip s) = strip s.
Proof.
  unfold strip. rewrite rstrip_lstrip by apply rstrip_idem. apply lstrip_idem.
Qed.

Definition not_english (d : desc_entry) : Prop :=
  lower (get_or "" d.(d_lang)) <> "en".

Lemma first_english_app pre d post :
  Forall not_english pre -> lower (get_or "" d.(d_lang)) = "en" ->
  first_english (pre ++ d :: post) = Some (strip (get_or "" d.(d_value))).
Proof.
  intros Hpre Hd. induction Hpre as [|d' pre Hd' Hpre IH]; simpl.
  - rewrite Hd. reflexivity.
  - destruct (String.eqb (lower (get_or "" (d_lang d'))) "en") eqn:E.
    + apply String.eqb_eq in E. contradiction.
    + exact IH.
Qed.

Lemma first_english_none ds : Forall not_english ds -> first_english ds = None.
Proof.
  induction 1 as [|d ds Hd _ IH]; simpl; [reflexivity|].
  destruct (String.eqb (lower (get_or "" (d_lang d))) "en") eqn:E; [|exact IH].
  apply String.eqb_eq in E. contradiction.
Qed.

Lemma first_english_stripped ds s : first_english ds = Some s -> strip s = s.
Proof.
  induction ds as [|d ds IH]; simpl; [discriminate|].
  destruct (String.eqb _ _); [intros H; injection H as <-; apply strip_idem|exact IH].
Qed.

(** [_extract_description] returns [None] exactly for an empty list; it
    returns the stripped value of the first entry whose [lang] is "en" in
    any letter case, wherever it is in the list, and otherwise the stripped
    value of the first entry; what it returns is already stripped. *)
Theorem extract_description_spec :
  (forall ds, extract_description ds = None <-> ds = []) /\
  (forall pre d post,
      Forall not_english pre -> lower (get_or "" d.(d_lang)) = "en" ->
      extract_description (pre ++ d :: post) = Some (strip (get_or "" d.(d_value)))) /\
  (forall d0 ds, Forall not_english (d0 :: ds) ->
      extract_description (d0 :: ds) = Some (strip (get_or "" d0.(d_value)))) /\
  (forall ds s, extract_description ds = Some s -> strip s = s).
Proof.
  split; [|split; [|split]].
  - intros [|d ds]; [simpl; tauto|]. unfold extract_description.
    destruct (first_english (d :: ds)); split; intros H; discriminate H.
  - intros pre d post Hpre Hd. unfold extract_description.
    rewrite (first_english_app pre d post Hpre Hd).
    destruct pre; reflexivity.
  - intros d0 ds H. unfold extract_description. rewrite first_english_none by exact H.
    reflexivity.
  - intros [|d ds] s; unfold extract_description; [discriminate|].
    destruct (first_english (d :: ds)) eqn:E.
    + intros Hs. injection Hs as <-. exact (first_english_stripped _ _ E).
    + intros Hs. injection Hs as <-. apply strip_idem.
Qed.

Lemma ascii_upper_idem c : ascii_upper (ascii_upper c) = ascii_upper c.
Proof.
  unfold ascii_upper at 2.
  destruct ((97 <=? nat_of_ascii c)%nat && (nat_of_ascii c <=? 122)%nat) eqn:E.
  - apply andb_prop in E as [E1 E2]. apply Nat.leb_le in E1, E2.
    unfold ascii_upper. rewrite nat_ascii_embedding by lia.
    destruct (97 <=? nat_of_ascii c - 32)%nat eqn:E3.
    + apply Nat.leb_le in E3. lia.
    + rewrite (proj2 (Nat.leb_le _ _) E1), (proj2 (Nat.leb_le _ _) E2). reflexivity.
  - unfold ascii_upper. rewrite E. reflexivity.
Qed.

Lemma upper_idem s : upper (upper s) = upper s.
Proof. induction s as [|c r IH]; simpl; [reflexivity|]. rewrite ascii_upper_idem, IH. reflexivity. Qed.

Lemma read_metric_severity m :
  exists s, snd (read_metric m) = Some s /\ upper s = s.
Proof. exists (upper (get_or "" (base_severity (match m with Some d => d | None => mk_cvss_data None None None end)))).
  split; [reflexivity|apply upper_idem]. Qed.

(** The severity [_extract_cvss_v2] and [_extract_cvss_v3] return is
    [None] only when there is no metric of the version they read; any
    other severity is upper case, the empty string when the metric has no
    [baseSeverity]. A [cvssMetricV31] metric is used before any
    [cvssMetricV30] one. *)
Theorem extract_cvss_severity :
  forall ms,
    (snd (extract_cvss_v2 ms) = None <-> ms.(cvss_metric_v2) = []) /\
    (snd (extract_cvss_v3 ms) = None <->
       ms.(cvss_metric_v31) = [] /\ ms.(cvss_metric_v30) = []) /\
    (forall s, snd (extract_cvss_v2 ms) = Some s \/ snd (extract_cvss_v3 ms) = Some s ->
               upper s = s) /\
    (forall m rest, ms.(cvss_metric_v31) = m :: rest -> extract_cvss_v3 ms = read_metric m).
Proof.
  intros [v2 v31 v30]. unfold extract_cvss_v2, extract_cvss_v3. cbn [cvss_metric_v2 cvss_metric_v31 cvss_metric_v30].
  split; [|split; [|split]].
  - destruct v2 as [|m ?]; [tauto|].
    destruct (read_metric_severity m) as [s [Hs _]]. rewrite Hs. split; discriminate.
  - destruct v31 as [|m ?].
    + destruct v30 as [|m ?]; [tauto|].
      destruct (read_metric_severity m) as [s [Hs _]]. rewrite Hs.
      split; [discriminate|intros [_ H]; discriminate H].
    + destruct (read_metric_severity m) as [s [Hs _]]. rewrite Hs.
      split; [discriminate|intros [H _]; discriminate H].
  - intros s [H|H].
    + destruct v2 as [|m ?]; [discriminate|].
      destruct (read_metric_severity m) as [s' [Hs Hu]]. rewrite Hs in H.
      injection H as <-. exact Hu.
    + destruct v31 as [|m ?]; [destruct v30 as [|m ?]; [discriminate|]|];
      destruct (read_metric_severity m) as [s' [Hs Hu]]; rewrite Hs in H;
      injection H as <-; exact Hu.
  - intros m rest ->. reflexivity.
Qed.

Lemma extract_description_spec_witness :
  extract_description [mk_desc (Some "es") (Some "hola"); mk_desc (Some "EN") (Some "  text ")]
  = Some "text".
Proof.
  destruct extract_description_spec as (_ & Hen & _).
  refine (eq_trans (Hen [mk_desc (Some "es") (Some "hola")]
                        (mk_desc (Some "EN") (Some "  text ")) [] _ _) _).
  - constructor; [unfold not_english; simpl; discriminate|constructor].
  - reflexivity.
  - reflexivity.
Defined.

Lemma extract_cvss_severity_witness :
  extract_cvss_v3 (mk_metrics [] [Some (mk_cvss_data (Some 98%Z) (Some "AV:N") (Some "critical"))]
                              [None])
  = (Some 98%Z, Some "AV:N", Some "CRITICAL").
Proof.
  destruct (extract_cvss_severity
              (mk_metrics [] [Some (mk_cvss_data (Some 98%Z) (Some "AV:N") (Some "critical"))]
                          [None])) as (_ & _ & _ & H).
  rewrite (H _ [] eq_refl). reflexivity.
Defined.

(** ** Listing pages *)

Lemma forallb_firstn {A} (p : A -> bool) n l :
  forallb p l = true -> forallb p (firstn n l) = true.
Proof.
  revert l. induction n as [|n IH]; intros [|x l] H; simpl in *; try reflexivity.
  apply andb_prop in H as [Hx Hl]. rewrite Hx, (IH l Hl). reflexivity.
Qed.

Lemma forallb_skipn {A} (p : A -> bool) n l :
  forallb p l = true -> forallb p (skipn n l) = true.
Proof.
  revert l. induction n as [|n IH]; intros [|x l] H; simpl in *; try assumption.
  apply andb_prop in H as [_ Hl]. exact (IH l Hl).
Qed.

Section Paging.
Variable clause_holds : Listing.clause -> row -> bool.
Variable order_by : string -> bool -> list row -> list row.

Lemma get_cves_page_items f (pg : nat) sz t :
  (1 <= sz)%Z ->
  Listing.columns_ok f t = true ->
  forallb Listing.converts
    (order_by (Listing.sort_field f) (Listing.sort_desc f)
       (Listing.run_filters clause_holds (Listing.filter_clauses f) t.(rows))) = true ->
  Listing.items (Listing.get_cves clause_holds order_by f (Z.of_nat (S pg)) sz t)
  = firstn (Z.to_nat sz)
      (skipn (pg * Z.to_nat sz)
         (order_by (Listing.sort_field f) (Listing.sort_desc f)
            (Listing.run_filters clause_holds (Listing.filter_clauses f) t.(rows)))).
Proof.
  intros Hsz Hcols Hconv.
  assert (Hoff : Z.to_nat ((Z.of_nat (S pg) - 1) * sz) = (pg * Z.to_nat sz)%nat).
  { replace (Z.of_nat (S pg) - 1)%Z with (Z.of_nat pg) by lia.
    rewrite Z2Nat.inj_mul, Nat2Z.id by lia. reflexivity. }
  unfold Listing.get_cves, Listing.query_succeeds.
  rewrite (page_rows_range clause_holds order_by f _ sz t Hsz), Hoff, Hcols.
  rewrite (forallb_firstn _ _ _ (forallb_skipn _ _ _ Hconv)). reflexivity.
Qed.
End Paging.

(** Paging through [GET /cves/] with a fixed size [sz >= 1] and fixed
    filters, on a query that succeeds (every column it names exists and
    every matching row converts): pages [1 .. k] together are exactly the
    first [k * sz] rows of the filtered, sorted result, in order, with no
    row repeated or skipped; a page past the end of the result is empty. *)
Theorem get_cves_pages_concat :
  forall clause_holds order_by f sz t,
    (1 <= sz)%Z ->
    Listing.columns_ok f t = true ->
    let sorted := order_by (Listing.sort_field f) (Listing.sort_desc f)
                    (Listing.run_filters clause_holds (Listing.filter_clauses f) t.(rows)) in
    forallb Listing.converts sorted = true ->
    (forall k,
        concat (map (fun p => Listing.items (Listing.get_cves clause_holds order_by f (Z.of_nat p) sz t))
                    (seq 1 k))
        = firstn (k * Z.to_nat sz) sorted) /\
    (forall pg, (Z.of_nat (length sorted) <= (pg - 1) * sz)%Z -> (1 <= pg)%Z ->
        Listing.items (Listing.get_cves clause_holds order_by f pg sz t) = []).
Proof.
  intros ch ob f sz t Hsz Hcols sorted Hconv. split.
  - induction k as [|k IH]; [reflexivity|].
    rewrite seq_S, map_app, concat_app, IH. cbn [map concat]. rewrite app_nil_r.
    replace (1 + k)%nat with (S k) by lia.
    rewrite (get_cves_page_items ch ob f k sz t Hsz Hcols Hconv). fold sorted.
    rewrite (firstn_split sorted (k * Z.to_nat sz) (S k * Z.to_nat sz)) by nia.
    replace (S k * Z.to_nat sz - k * Z.to_nat sz)%nat with (Z.to_nat sz) by nia.
    reflexivity.
  - intros pg Hend Hpg.
    replace pg with (Z.of_nat (S (Z.to_nat (pg - 1)))) by lia.
    rewrite (get_cves_page_items ch ob f _ sz t Hsz Hcols Hconv). fold sorted.
    rewrite skipn_all2; [apply firstn_nil|].
    apply Nat2Z.inj_le. rewrite Nat2Z.inj_mul, !Z2Nat.id by lia. exact Hend.
Qed.

Lemma get_cves_pages_concat_witness :
  Listing.columns_ok (Listing.mk_filters None None None None None None None None None None None)
    Samples.cves1 = true /\
  forallb Listing.converts Samples.cves1.(rows) = true /\
  concat (map (fun p => Listing.items (Listing.get_cves (fun _ _ => true) (fun _ _ l => l)
                                (Listing.mk_filters None None None None None None None None None None None)
                                (Z.of_nat p) 1 Samples.cves1)) (seq 1 2))
  = firstn 2 Samples.cves1.(rows).
Proof.
  split; [reflexivity|]. split; [reflexivity|].
  destruct (get_cves_pages_concat (fun _ _ => true) (fun _ _ l => l)
              (Listing.mk_filters None None None None None None None None None None None)
              1 Samples.cves1 ltac:(lia) eq_refl eq_refl) as [H _].
  rewrite (H 2%nat). reflexivity.
Defined.

(** [GET /cves/search/?q=term&limit=n] returns the first page, of size
    [n], of [GET /cves/?keyword=term] with its default ordering (most
    recently modified first). *)
Theorem search_is_first_keyword_page :
  forall clause_holds order_by term limit t,
    term <> "" -> (1 <= limit)%Z ->
    Listing.search_cves clause_holds order_by term limit t
    = Listing.items (Listing.get_cves clause_holds order_by
               (Listing.mk_filters None None None None None None None None (Some term) None None)
               1 limit t).
Proof.
  intros ch ob term limit t Hterm Hlim.
  unfold Listing.get_cves, Listing.query_succeeds, Listing.columns_ok.
  rewrite (page_rows_range ch ob _ 1 limit t Hlim).
  replace (Z.to_nat ((1 - 1) * limit)) with 0%nat by lia. cbn [skipn].
  unfold Listing.search_cves, Listing.sort_field, Listing.sort_desc, Listing.filter_clauses. cbn [Listing.truthy Listing.f_cve_id Listing.f_year
    Listing.f_min_score Listing.f_max_score Listing.f_severity Listing.f_vuln_status Listing.f_modified_since Listing.f_published_since
    Listing.f_keyword Listing.f_sort Listing.f_order app].
  destruct (String.eqb term "") eqn:E; [apply String.eqb_eq in E; contradiction|].
  cbn [map forallb Listing.clause_column].
  destruct (Listing.has_column t "last_modified"), (Listing.has_column t "description");
    cbn [andb Listing.items]; [|reflexivity|reflexivity|reflexivity].
  destruct (forallb Listing.converts _); reflexivity.
Qed.

Lemma search_is_first_keyword_page_witness :
  Listing.search_cves (fun _ _ => true) (fun _ _ l => l) "overflow" 5 Samples.cves1
  = Listing.items (Listing.get_cves (fun _ _ => true) (fun _ _ l => l)
             (Listing.mk_filters None None None None None None None None (Some "overflow") None None)
             1 5 Samples.cves1).
Proof. apply search_is_first_keyword_page; [discriminate|lia]. Defined.

(** ** [NVDClient._make_request] *)

Lemma request_loop_ends max d net :
  forall n a sleeps,
    (1 <= n)%nat -> (n + a = S max)%nat ->
    match NvdClient.request_loop max d net n a sleeps with
    | (r, _, k) => r <> Err NVDAPIError "Max retries exceeded" /\ (a < k <= S max)%nat
    end.
Proof.
  induction n as [|n IH]; intros a sleeps Hn Hna; [lia|].
  cbn [NvdClient.request_loop].
  destruct (a <? max)%nat eqn:Em; [apply Nat.ltb_lt in Em|apply Nat.ltb_ge in Em];
    destruct (net a) as [st body reset|m|]; rewrite ?andb_false_r;
    repeat match goal with |- context [if ?b then _ else _] => destruct b end;
    try (split; [first [discriminate
                        | let H := fresh in
                          intros H; injection H as H; cbn [append] in H; discriminate H]
                |lia]);
    match goal with
    | |- context [NvdClient.request_loop _ _ _ _ (S a) ?sl] =>
        generalize (IH (S a) sl ltac:(lia) ltac:(lia));
        destruct (NvdClient.request_loop _ _ _ _ (S a) sl) as [[r sl'] k];
        intros [H1 H2]; split; [exact H1|lia]
    end.
Qed.

(** [_make_request] always ends inside its loop: it never reaches the
    "Max retries exceeded" error after the loop, and it makes between one
    and [max_retries + 1] attempts. *)
Theorem make_request_never_exhausts_loop :
  forall max d net,
    fst (fst (NvdClient.make_request max d net)) <> Err NVDAPIError "Max retries exceeded" /\
    (1 <= snd (NvdClient.make_request max d net) <= S max)%nat.
Proof.
  intros max d net. unfold NvdClient.make_request.
  generalize (request_loop_ends max d net (S max) 0 [] ltac:(lia) ltac:(lia)).
  destruct (NvdClient.request_loop max d net (S max) 0 []) as [[r sl] k].
  intros [H1 H2]. cbn [fst snd]. split; [exact H1|lia].
Qed.

Lemma request_loop_success max d net j body st reset :
  (forall k, (k < j)%nat -> NvdClient.retried_failure (net k) = true) ->
  net j = NvdClient.Response st body reset -> (st < 400)%Z ->
  forall n a sleeps,
    (1 <= a <= j)%nat -> (j <= max)%nat -> (n + a = S max)%nat ->
    NvdClient.request_loop max d net n a sleeps
    = (Ok body, sleeps ++ map (fun k => (d * 2 ^ Z.of_nat k)%Z) (seq (a - 1) (S j - a)), S j).
Proof.
  intros Hfail Hj Hst.
  induction n as [|n IH]; intros a sleeps Ha Hjm Hna; [lia|].
  cbn [NvdClient.request_loop].
  destruct (0 <? a)%nat eqn:Ea; [|apply Nat.ltb_ge in Ea; lia].
  destruct (Nat.eq_dec a j) as [->|Hne].
  - rewrite Hj. destruct (st =? 403)%Z eqn:E403; [apply Z.eqb_eq in E403; lia|].
    assert (E400 : (400 <=? st)%Z = false) by (apply Z.leb_gt; lia).
    rewrite E400. replace (S j - j)%nat with 1%nat by lia. reflexivity.
  - assert (Hnet := Hfail a ltac:(lia)).
    assert (Em : (a <? max)%nat = true) by (apply Nat.ltb_lt; lia).
    rewrite Em.
    rewrite (IH (S a) (sleeps ++ [(d * 2 ^ Z.of_nat (a - 1))%Z]) ltac:(lia) ltac:(lia) ltac:(lia)).
    assert (Hseq : seq (a - 1) (S j - a) = (a - 1)%nat :: seq (S a - 1) (S j - S a)).
    { replace (S j - a)%nat with (S (S j - S a)) by lia. simpl. f_equal. f_equal. lia. }
    rewrite Hseq. cbn [map]. rewrite <- app_assoc.
    destruct (net a) as [st' body' reset'|m|]; simpl in Hnet; [|reflexivity|reflexivity].
    apply Z.leb_le in Hnet.
    destruct (st' =? 403)%Z eqn:E403; [apply Z.eqb_eq in E403; lia|].
    assert (E400 : (400 <=? st')%Z = true) by (apply Z.leb_le; lia).
    rewrite E400, (proj2 (Z.leb_le 500 st') Hnet). reflexivity.
Qed.

(** When attempts [0 .. j-1] fail in a way the loop retries (a 5xx
    status, a network error, a timeout) and attempt [j <= max_retries]
    gets a response below 400 (a 3xx included), [_make_request] returns
    that body after [j + 1] attempts, having slept the exponential backoff
    [d, 2d, ..., 2^(j-1) d]. *)
Theorem make_request_success_after_retries :
  forall max d net j body st reset,
    (j <= max)%nat ->
    (forall k, (k < j)%nat -> NvdClient.retried_failure (net k) = true) ->
    net j = NvdClient.Response st body reset -> (st < 400)%Z ->
    NvdClient.make_request max d net = (Ok body, NvdClient.backoff_delays d j, S j).
Proof.
  intros max d net j body st reset Hjm Hfail Hj Hst.
  unfold NvdClient.make_request, NvdClient.backoff_delays.
  destruct j as [|j].
  - cbn [NvdClient.request_loop]. rewrite Hj.
    destruct (st =? 403)%Z eqn:E403; [apply Z.eqb_eq in E403; lia|].
    assert (E400 : (400 <=? st)%Z = false) by (apply Z.leb_gt; lia).
    rewrite E400. reflexivity.
  - rewrite request_loop_first_retry by (try apply Hfail; lia).
    rewrite (request_loop_success max d net (S j) body st reset Hfail Hj Hst max 1 []
               ltac:(lia) Hjm ltac:(lia)).
    replace (S (S j) - 1)%nat with (S j) by lia. reflexivity.
Qed.

Lemma make_request_success_after_retries_witness :
  NvdClient.make_request 3 2
    (fun k => match k with
              | O => NvdClient.Timeout
              | 1%nat => NvdClient.Response 503 "unavailable" None
              | _ => NvdClient.Response 200 "{}" None
              end)
  = (Ok "{}", [2%Z; 4%Z], 3%nat).
Proof.
  apply (make_request_success_after_retries 3 2 _ 2 "{}" 200 None).
  - lia.
  - intros k Hk. destruct k as [|[|k]]; [reflexivity|reflexivity|lia].
  - reflexivity.
  - lia.
Defined.

Lemma request_loop_all_403 max d net r :
  (forall k, (k <= max)%nat -> exists body, net k = NvdClient.Response 403 body (Some r)) ->
  forall n a sleeps,
    (1 <= a)%nat -> (n + a = S max)%nat -> (1 <= n)%nat ->
    NvdClient.request_loop max d net n a sleeps
    = (Err RateLimitError "Rate limit exceeded and max retries reached",
       sleeps ++ [(d * 2 ^ Z.of_nat (a - 1))%Z]
              ++ concat (map (fun k => [r; (d * 2 ^ Z.of_nat k)%Z]) (seq a (n - 1))),
       S max).
Proof.
  intros H403.
  induction n as [|n IH]; intros a sleeps Ha Hna Hn; [lia|].
  cbn [NvdClient.request_loop].
  destruct (0 <? a)%nat eqn:Ea; [|apply Nat.ltb_ge in Ea; lia].
  destruct (H403 a ltac:(lia)) as [body Hb]. rewrite Hb. cbn [Z.eqb Pos.eqb].
  destruct (a <? max)%nat eqn:Em.
  - apply Nat.ltb_lt in Em.
    rewrite (IH (S a) _ ltac:(lia) ltac:(lia) ltac:(lia)).
    replace (S n - 1)%nat with (S (n - 1)) by lia. cbn [seq map concat].
    replace (S a - 1)%nat with a by lia. rewrite <- !app_assoc. reflexivity.
  - apply Nat.ltb_ge in Em. replace (S n - 1)%nat with 0%nat by lia.
    cbn [seq map concat]. rewrite app_nil_r.
    replace a with max by lia. reflexivity.
Qed.

(** When every attempt is answered 403 with an [X-RateLimit-Reset] of [r]
    seconds, [_make_request] makes [max_retries + 1] attempts and raises
    [RateLimitError]; before each retry it sleeps twice: [r], then the
    exponential backoff [2^k d] at the top of the next attempt. *)
Theorem make_request_rate_limit_sleeps :
  forall max d net r,
    (forall k, (k <= max)%nat -> exists body, net k = NvdClient.Response 403 body (Some r)) ->
    NvdClient.make_request max d net
    = (Err RateLimitError "Rate limit exceeded and max retries reached",
       concat (map (fun k => [r; (d * 2 ^ Z.of_nat k)%Z]) (seq 0 max)),
       S max).
Proof.
  intros max d net r H403. unfold NvdClient.make_request.
  cbn [NvdClient.request_loop].
  destruct (H403 0%nat ltac:(lia)) as [body Hb]. rewrite Hb. cbn [Z.eqb Pos.eqb].
  destruct max as [|max'].
  - reflexivity.
  - cbn [Nat.ltb Nat.leb].
    etransitivity;
      [exact (request_loop_all_403 (S max') d net r H403 (S max') 1 [r]
                ltac:(lia) ltac:(lia) ltac:(lia))|].
    replace (S max' - 1)%nat with max' by lia. reflexivity.
Qed.

Lemma make_request_rate_limit_sleeps_witness :
  NvdClient.make_request 2 1 (fun _ => NvdClient.Response 403 "slow down" (Some 60%Z))
  = (Err RateLimitError "Rate limit exceeded and max retries reached",
     [60%Z; 1%Z; 60%Z; 2%Z], 3%nat).
Proof.
  apply (make_request_rate_limit_sleeps 2 1 _ 60).
  intros k _. exists "slow down". reflexivity.
Defined.

(** ** The synchronisation service *)

Import SyncService.

(** The sync endpoints build a new [SyncService] for every request
    ([get_sync_service]), so they never see a sync started by an earlier
    request: [POST /sync/] never answers "already running",
    [GET /sync/running] always reports [false], and [POST /sync/cancel]
    always answers 404 and leaves the sync_status table unchanged, even
    while a row is [running]. *)
Theorem sync_api_sees_no_running_task :
  forall enabled now ty force rs next_id,
    SyncApi.trigger_sync enabled now ty force rs next_id
      <> Err ValidationError "Synchronization is already running" /\
    SyncApi.check_sync_running rs = false /\
    SyncApi.cancel_sync now rs = (false, rs).
Proof.
  intros enabled now ty force rs next_id.
  unfold SyncApi.trigger_sync, SyncApi.check_sync_running, SyncApi.cancel_sync,
    SyncService.trigger_sync, cancel_running_sync, SyncApi.fresh_service, is_sync_running.
  cbn [running_sync st_state sync_rows negb andb].
  split; [|split; reflexivity].
  destruct (negb enabled && negb force); discriminate.
Qed.

Lemma map_id_update_row sid f rs :
  (forall r, sr_id (f r) = sr_id r) -> map sr_id (update_row sid f rs) = map sr_id rs.
Proof.
  intros Hf. unfold update_row. rewrite map_map. apply map_ext. intros r.
  destruct (sr_id r =? sid)%Z; [apply Hf|reflexivity].
Qed.

Lemma map_id_update_sync_status_error now sid msg rs :
  map sr_id (update_sync_status_error now sid msg rs) = map sr_id rs.
Proof.
  unfold update_sync_status_error.
  destruct (match sid with
            | Some s => if (s =? 0)%Z then option_map sr_id (latest_running rs) else Some s
            | None => option_map sr_id (latest_running rs)
            end); [apply map_id_update_row; reflexivity|reflexivity].
Qed.

Lemma map_id_cancel now s :
  map sr_id (sync_rows (snd (cancel_running_sync now s))) = map sr_id (sync_rows s).
Proof.
  unfold cancel_running_sync. destruct (negb (is_sync_running s)); [reflexivity|].
  cbn [snd sync_rows]. rewrite map_id_update_sync_status_error.
  destruct (running_sync s) as [t|]; [|reflexivity].
  destruct (task_started t); [apply map_id_update_sync_status_error|reflexivity].
Qed.

(** [trigger_sync] refuses when synchronisation is disabled and not forced,
    then when a sync of this service is running and not forced; otherwise
    it returns the next serial id, appends a [running] row with that id
    after the existing rows (which keep their ids, a forced trigger
    cancelling the running sync first), and records a task for it that
    counts as running. *)
Theorem trigger_sync_outcomes :
  forall enabled now ty force s,
    (enabled = false -> force = false ->
       SyncService.trigger_sync enabled now ty force s
       = Err ValidationError "Synchronization is disabled") /\
    (enabled = true -> force = false -> is_sync_running s.(st_state) = true ->
       SyncService.trigger_sync enabled now ty force s
       = Err ValidationError "Synchronization is already running") /\
    ((enabled = true /\ is_sync_running s.(st_state) = false \/ force = true) ->
       exists s',
         SyncService.trigger_sync enabled now ty force s = Ok (s.(st_next_id), s') /\
         s'.(st_next_id) = (s.(st_next_id) + 1)%Z /\
         is_sync_running s'.(st_state) = true /\
         map sr_id s'.(st_state).(sync_rows)
           = map sr_id s.(st_state).(sync_rows) ++ [s.(st_next_id)] /\
         last s'.(st_state).(sync_rows) (new_sync_row 0 ty now)
           = new_sync_row s.(st_next_id) ty now).
Proof.
  intros enabled now ty force s. unfold SyncService.trigger_sync.
  split; [|split].
  - intros -> ->. reflexivity.
  - intros -> -> ->. reflexivity.
  - intros Hc.
    assert (Hpass : negb enabled && negb force = false /\
                    is_sync_running (st_state s) && negb force = false).
    { destruct Hc as [[-> ->] | ->]; split; try reflexivity; apply andb_false_r. }
    destruct Hpass as [-> ->].
    eexists. split; [reflexivity|]. cbn [st_next_id st_state sync_rows is_sync_running
                                         running_sync task_done negb].
    split; [reflexivity|]. split; [reflexivity|]. split.
    + rewrite map_app. cbn [map]. f_equal.
      destruct (is_sync_running (st_state s)); [apply map_id_cancel|reflexivity].
    + apply last_last.
Qed.

Lemma trigger_sync_outcomes_witness :
  exists s',
    SyncService.trigger_sync true 100 INCREMENTAL true
      (mk_store Samples.active_state 2) = Ok (2%Z, s') /\
    map sr_id s'.(st_state).(sync_rows) = [1%Z; 2%Z].
Proof.
  destruct (trigger_sync_outcomes true 100 INCREMENTAL true (mk_store Samples.active_state 2))
    as (_ & _ & H).
  destruct (H (or_intror eq_refl)) as (s' & H1 & _ & _ & H4 & _).
  exists s'. split; [exact H1|exact H4].
Defined.

(** *** Finished runs keep their completion time *)

Definition completion_ok (r : sync_row) : Prop :=
  is_terminal r.(sr_status) = true -> r.(sr_completed_at) <> None.

Lemma completion_recorded_iff rs :
  completion_recorded rs = true <-> Forall completion_ok rs.
Proof.
  unfold completion_recorded. rewrite forallb_forall, Forall_forall.
  split; intros H r Hin; specialize (H r Hin); unfold completion_ok in *.
  - intros Ht. rewrite Ht in H. destruct (sr_completed_at r); [discriminate|discriminate H].
  - destruct (is_terminal (sr_status r)); [|reflexivity].
    destruct (sr_completed_at r); [reflexivity|]. exfalso. now apply H.
Qed.

Lemma completion_update_row sid f rs :
  (forall r, completion_ok r -> completion_ok (f r)) ->
  Forall completion_ok rs -> Forall completion_ok (update_row sid f rs).
Proof.
  intros Hf H. unfold update_row. induction H as [|r rs Hr _ IH]; constructor; [|exact IH].
  destruct (sr_id r =? sid)%Z; [apply Hf|]; exact Hr.
Qed.

Lemma completion_update_sync_status now sid st tot p c u lmd rs :
  Forall completion_ok rs ->
  Forall completion_ok (update_sync_status now sid st tot p c u lmd rs).
Proof.
  apply completion_update_row. intros r Hr. unfold completion_ok in *. cbn.
  destruct (is_terminal st); [discriminate|intros Hf; discriminate Hf].
Qed.

Lemma completion_update_sync_status_error now sid msg rs :
  Forall completion_ok rs -> Forall completion_ok (update_sync_status_error now sid msg rs).
Proof.
  intros H. unfold update_sync_status_error.
  destruct (match sid with
            | Some s => if (s =? 0)%Z then option_map sr_id (latest_running rs) else Some s
            | None => option_map sr_id (latest_running rs)
            end); [|exact H].
  apply completion_update_row; [|exact H]. intros r _. unfold completion_ok. cbn. discriminate.
Qed.

Lemma completion_cancel now s :
  Forall completion_ok s.(sync_rows) ->
  Forall completion_ok (snd (cancel_running_sync now s)).(sync_rows).
Proof.
  intros H. unfold cancel_running_sync. destruct (negb (is_sync_running s)); [exact H|].
  cbn [snd sync_rows]. apply completion_update_sync_status_error.
  destruct (running_sync s) as [t|]; [|exact H].
  destruct (task_started t); [apply completion_update_sync_status_error|]; exact H.
Qed.

Lemma completion_full_sync_loop now bs sid total items :
  forall p c u b e,
    Forall completion_ok e.(env_rows) ->
    let '(_, _, _, _, e') := full_sync_loop now bs sid total items p c u b e in
    Forall completion_ok e'.(env_rows).
Proof.
  induction items as [|it rest IH]; intros p c u b e H; simpl; [exact H|].
  destruct (bs <=? length (b ++ [it]))%nat; [|apply IH; exact H].
  destruct (run_batch now (b ++ [it]) e) as [[c0 u0] e0] eqn:Hrb.
  apply IH. cbn [env_rows]. apply completion_update_sync_status.
  rewrite (run_batch_rows _ _ _ _ _ _ Hrb). exact H.
Qed.

Ltac finish_sync_rows Hrows :=
  match goal with
  | |- context [match ?b with [] => _ | _ :: _ => _ end] =>
      destruct b as [|x b];
      [ cbn beta iota; cbn [env_rows]; apply completion_update_sync_status; exact Hrows
      | let Hrb := fresh "Hrb" in
        destruct (run_batch _ (x :: b) _) as [[c0 u0] e0] eqn:Hrb;
        cbn beta iota; cbn [env_rows]; apply completion_update_sync_status;
        rewrite (run_batch_rows _ _ _ _ _ _ Hrb); exact Hrows ]
  end.

(** Every operation that writes the sync_status table keeps this
    invariant: a row whose status is terminal ([completed], [failed],
    [cancelled]) has a completion time. The status updates, the error
    update, cancellation, triggering, the cleanup, and a full, incremental
    or failed sync all preserve it. *)
Theorem sync_writes_keep_completion_time :
  forall rs,
    completion_recorded rs = true ->
    (forall now sid st tot p c u lmd,
       completion_recorded (update_sync_status now sid st tot p c u lmd rs) = true) /\
    (forall now sid msg, completion_recorded (update_sync_status_error now sid msg rs) = true) /\
    (forall now task, completion_recorded
                        (snd (cancel_running_sync now (mk_state task rs))).(sync_rows) = true) /\
    (forall enabled now ty force task next_id i s',
       SyncService.trigger_sync enabled now ty force (mk_store (mk_state task rs) next_id)
         = Ok (i, s') ->
       completion_recorded s'.(st_state).(sync_rows) = true) /\
    (forall db_ok now days, completion_recorded (snd (cleanup_old_sync_records db_ok now days rs))
                            = true) /\
    (forall now bs sid total items cves,
       completion_recorded (perform_full_sync now bs sid total items (mk_env rs cves)).(env_rows)
       = true) /\
    (forall now bs sid total items cves,
       completion_recorded
         (perform_incremental_sync now bs sid total items (mk_env rs cves)).(env_rows) = true) /\
    (forall now bs sid total items err cves,
       completion_recorded
         (full_sync_stream_failure now bs sid total items err (mk_env rs cves)).(env_rows) = true).
Proof.
  intros rs H. rewrite completion_recorded_iff in H.
  split; [|split; [|split; [|split; [|split; [|split; [|split]]]]]].
  - intros. rewrite completion_recorded_iff. apply completion_update_sync_status. exact H.
  - intros. rewrite completion_recorded_iff. apply completion_update_sync_status_error. exact H.
  - intros. rewrite completion_recorded_iff. apply completion_cancel. exact H.
  - intros enabled now ty force tk nid i s' Ht. rewrite completion_recorded_iff.
    unfold SyncService.trigger_sync in Ht; cbn [st_state st_next_id] in Ht.
    destruct (negb enabled && negb force); [discriminate|].
    destruct (is_sync_running (mk_state tk rs) && negb force); [discriminate|].
    injection Ht as _ <-.
    cbn [st_state sync_rows]. apply Forall_app. split.
    + destruct (is_sync_running (mk_state tk rs)); [|exact H].
      apply (completion_cancel now (mk_state tk rs)). exact H.
    + constructor; [|constructor]. unfold completion_ok. cbn. discriminate.
  - intros db_ok now days. rewrite completion_recorded_iff.
    unfold cleanup_old_sync_records. destruct db_ok; [|exact H].
    cbn [negb snd]. apply Forall_forall. intros r Hin. apply filter_In in Hin as [Hin _].
    exact (proj1 (Forall_forall _ _) H r Hin).
  - intros now bs sid total items cves. rewrite completion_recorded_iff.
    unfold perform_full_sync. cbn [env_rows env_cves].
    pose proof (completion_full_sync_loop now bs sid total items 0 0 0 []
                  (mk_env (update_sync_status now sid RUNNING total 0 0 0 None rs) cves)
                  (completion_update_sync_status _ _ _ _ _ _ _ _ _ H)) as Hl.
    destruct (full_sync_loop _ _ _ _ _ _ _ _ _ _) as [[[[p c] u] b] e'].
    finish_sync_rows Hl.
  - intros now bs sid total items cves. rewrite completion_recorded_iff.
    unfold perform_incremental_sync. cbn [env_rows env_cves].
    destruct (total =? 0)%Z.
    + cbn [env_rows]. apply completion_update_sync_status, completion_update_sync_status. exact H.
    + destruct (first_date_error items) as [[k msg]|].
      * pose proof (completion_full_sync_loop now bs sid total (firstn k items) 0 0 0 []
                      (mk_env (update_sync_status now sid RUNNING total 0 0 0 None rs) cves)
                      (completion_update_sync_status _ _ _ _ _ _ _ _ _ H)) as Hl.
        destruct (full_sync_loop _ _ _ _ _ _ _ _ _ _) as [[[[p c] u] b] e'].
        cbn [env_rows]. apply completion_update_sync_status_error. exact Hl.
      * pose proof (completion_full_sync_loop now bs sid total items 0 0 0 []
                      (mk_env (update_sync_status now sid RUNNING total 0 0 0 None rs) cves)
                      (completion_update_sync_status _ _ _ _ _ _ _ _ _ H)) as Hl.
        destruct (full_sync_loop _ _ _ _ _ _ _ _ _ _) as [[[[p c] u] b] e'].
        finish_sync_rows Hl.
  - intros now bs sid total items err cves. rewrite completion_recorded_iff.
    unfold full_sync_stream_failure. cbn [env_rows env_cves].
    pose proof (completion_full_sync_loop now bs sid total items 0 0 0 []
                  (mk_env (update_sync_status now sid RUNNING total 0 0 0 None rs) cves)
                  (completion_update_sync_status _ _ _ _ _ _ _ _ _ H)) as Hl.
    destruct (full_sync_loop _ _ _ _ _ _ _ _ _ _) as [[[[p c] u] b] e'].
    cbn [env_rows]. apply completion_update_sync_status_error. exact Hl.
Qed.

Lemma sync_writes_keep_completion_time_witness :
  completion_recorded
    (perform_incremental_sync 500 10 1 1 [Samples.item_v1]
       (mk_env [Samples.running_row] Samples.cves0)).(env_rows) = true.
Proof.
  destruct (sync_writes_keep_completion_time [Samples.running_row] eq_refl)
    as (_ & _ & _ & _ & _ & _ & H & _).
  apply H.
Defined.

Lemma latest_sync_in rs r : latest_sync rs = Some r -> In r rs.
Proof.
  induction rs as [|x rs IH]; simpl; [discriminate|].
  destruct (latest_sync rs) as [b|].
  - destruct (sr_started_at x <? sr_started_at b)%Z; intros Hr; injection Hr as <-;
      [right; apply IH; reflexivity|left; reflexivity].
  - intros Hr. injection Hr as <-. left. reflexivity.
Qed.

(** While every finished run has a completion time, [should_run_sync]
    never fails: with synchronisation enabled it answers [true] when there
    is no run or the latest one is not [completed], and otherwise compares
    the time since that run completed with the interval. *)
Theorem should_run_sync_total :
  forall enabled interval_hours now rs,
    completion_recorded rs = true ->
    exists b, should_run_sync enabled interval_hours now rs = Some b.
Proof.
  intros enabled h now rs H. rewrite completion_recorded_iff in H.
  unfold should_run_sync. destruct (negb enabled); [eexists; reflexivity|].
  cbn [get_sync_status]. destruct (latest_sync rs) as [r|] eqn:El; [|eexists; reflexivity].
  destruct (negb (status_eqb (sr_status r) COMPLETED)) eqn:Es; [eexists; reflexivity|].
  destruct (sr_completed_at r) eqn:Ec; [eexists; reflexivity|].
  exfalso. apply latest_sync_in in El.
  apply (proj1 (Forall_forall _ _) H r El); [|exact Ec].
  destruct (sr_status r); try discriminate Es; reflexivity.
Qed.

Lemma should_run_sync_total_witness :
  exists b, should_run_sync true 24 100000
              (perform_incremental_sync 500 10 1 1 [Samples.item_v1]
                 (mk_env [Samples.running_row] Samples.cves0)).(env_rows) = Some b.
Proof.
  apply should_run_sync_total. vm_compute. reflexivity.
Defined.

(** *** [cleanup_old_sync_records] *)

Lemma length_filter_partition {A} (f : A -> bool) l :
  (length (filter f l) + length (filter (fun x => negb (f x)) l) = length l)%nat.
Proof.
  induction l as [|x l IH]; simpl; [reflexivity|].
  destruct (f x); simpl; lia.
Qed.

(** [cleanup_old_sync_records] deletes exactly the finished runs
    ([completed], [failed], [cancelled]) started before [now - days]; a run
    that is [pending] or [running], or started at or after the cutoff, is
    kept; it returns the number of rows it deleted. When the delete fails,
    [return deleted_count] raises [UnboundLocalError] instead of returning
    a count, and the table is unchanged. *)
Theorem cleanup_removes_only_old_finished_runs :
  forall db_ok now days rs,
    let cutoff := (now - days * 86400)%Z in
    (db_ok = false -> cleanup_old_sync_records db_ok now days rs = (None, rs)) /\
    (db_ok = true ->
     exists rs',
       cleanup_old_sync_records db_ok now days rs
         = (Some (Z.of_nat (length rs - length rs')), rs') /\
       (forall r, In r rs' <->
          In r rs /\ (is_terminal r.(sr_status) = false \/ (cutoff <= r.(sr_started_at))%Z))).
Proof.
  intros db_ok now days rs cutoff. split.
  - intros ->. reflexivity.
  - intros ->. unfold cleanup_old_sync_records. cbn [negb].
    eexists. split.
    + f_equal. f_equal. f_equal.
      pose proof (length_filter_partition
                    (fun r => (sr_started_at r <? now - days * 86400)%Z
                              && is_terminal (sr_status r)) rs). lia.
    + intros r. rewrite filter_In. fold cutoff.
      destruct (is_terminal (sr_status r)), (sr_started_at r <? cutoff)%Z eqn:E;
        cbn [andb negb];
        [apply Z.ltb_lt in E | apply Z.ltb_ge in E | apply Z.ltb_lt in E | apply Z.ltb_ge in E];
        split; intros [Hin Hc]; split; auto; try discriminate;
        destruct Hc as [Hc|Hc]; try discriminate; lia.
Qed.

Lemma cleanup_removes_only_old_finished_runs_witness :
  cleanup_old_sync_records false 100 30 [Samples.running_row] = (None, [Samples.running_row]).
Proof.
  destruct (cleanup_removes_only_old_finished_runs false 100 30 [Samples.running_row]) as [H _].
  apply H. reflexivity.
Defined.

(** *** [_perform_incremental_sync] *)

Lemma latest_modified_bounds items :
  forall start,
    (start <= latest_modified start items)%Z /\
    (forall it m, In it items -> it.(ni_last_modified) = Some m ->
                  (m <= latest_modified start items)%Z) /\
    (latest_modified start items = start \/
     exists it, In it items /\ it.(ni_last_modified) = Some (latest_modified start items)).
Proof.
  unfold latest_modified.
  induction items as [|it rest IH]; intros start; simpl.
  - split; [lia|]. split; [intros _ _ []|]. left. reflexivity.
  - set (start' := match ni_last_modified it with
                   | Some m => if (start <? m)%Z then m else start
                   | None => start
                   end).
    destruct (IH start') as (H1 & H2 & H3).
    assert (Hs : (start <= start')%Z /\
                 (forall m, ni_last_modified it = Some m -> (m <= start')%Z) /\
                 (start' = start \/ ni_last_modified it = Some start')).
    { unfold start'. destruct (ni_last_modified it) as [m|].
      - destruct (start <? m)%Z eqn:E; [apply Z.ltb_lt in E|apply Z.ltb_ge in E].
        + split; [lia|]. split; [intros m' Hm; injection Hm as <-; lia|]. right. reflexivity.
        + split; [lia|]. split; [intros m' Hm; injection Hm as <-; lia|]. left. reflexivity.
      - split; [lia|]. split; [discriminate|]. left. reflexivity. }
    destruct Hs as (Hs1 & Hs2 & Hs3).
    split; [lia|]. split.
    + intros it' m [<-|Hin] Hm; [specialize (Hs2 m Hm); lia|exact (H2 it' m Hin Hm)].
    + destruct H3 as [H3|(it' & Hin & Hm)].
      * rewrite H3. destruct Hs3 as [Hs3|Hs3]; [left; exact Hs3|].
        right. exists it. split; [left; reflexivity|exact Hs3].
      * right. exists it'. split; [right; exact Hin|exact Hm].
Qed.

(** An incremental sync that the probe reports records for, none of
    whose [lastModified] values makes [datetime.fromisoformat] raise, ends
    with its row [completed], a completion time, every streamed record counted as
    processed, and as high-water mark the latest [lastModified] among the
    streamed records, or the previous mark ([now] minus seven days when
    there is none) if no record is later. That mark is never earlier than
    the previous one or than any streamed record's [lastModified], and it
    is the previous one or one of them. *)
Theorem incremental_sync_records_latest_modified :
  forall now bs sid total items e r0,
    find_row sid e.(env_rows) = Some r0 -> total <> 0%Z ->
    first_date_error items = None ->
    let last := match get_last_sync_date e.(env_rows) with
                | Some d => d
                | None => (now - 7 * 86400)%Z
                end in
    let mark := latest_modified last items in
    (exists r,
       find_row sid (perform_incremental_sync now bs sid total items e).(env_rows) = Some r /\
       r.(sr_status) = COMPLETED /\
       r.(sr_completed_at) = Some now /\
       r.(sr_processed_records) = Z.of_nat (length items) /\
       r.(sr_last_modified_date) = Some mark) /\
    (last <= mark)%Z /\
    (forall it m, In it items -> it.(ni_last_modified) = Some m -> (m <= mark)%Z) /\
    (mark = last \/ exists it, In it items /\ it.(ni_last_modified) = Some mark).
Proof.
  intros now bs sid total items e r0 Hr0 Htot Hne last mark.
  destruct (latest_modified_bounds items last) as (B1 & B2 & B3).
  split; [|split; [exact B1|split; [exact B2|exact B3]]].
  unfold perform_incremental_sync. fold last.
  apply Z.eqb_neq in Htot. rewrite Htot, Hne.
  set (e1 := mk_env (update_sync_status now sid RUNNING total 0 0 0 None (env_rows e))
                    (env_cves e)).
  assert (H1 : find_row sid (env_rows e1) <> None).
  { apply update_sync_status_keeps_row. rewrite Hr0. discriminate. }
  pose proof (full_sync_loop_inv now bs sid total items 0 0 0 [] e1) as Hinv.
  destruct (full_sync_loop _ _ _ _ _ _ _ _ _ _) as [[[[p c] u] b] e2].
  destruct Hinv as [Hcount Hkeep]. specialize (Hkeep H1). simpl in Hcount.
  destruct b as [|x b'].
  - cbn beta iota. cbn [env_rows]. unfold update_sync_status.
    rewrite find_row_update_row by reflexivity.
    destruct (find_row sid (env_rows e2)) as [r|]; [|contradiction].
    eexists. split; [reflexivity|]. simpl. repeat split. simpl in Hcount. lia.
  - destruct (run_batch now (x :: b') e2) as [[c0 u0] e3] eqn:Hrb.
    cbn beta iota. cbn [env_rows]. unfold update_sync_status.
    rewrite find_row_update_row by reflexivity.
    rewrite (run_batch_rows _ _ _ _ _ _ Hrb).
    destruct (find_row sid (env_rows e2)) as [r|]; [|contradiction].
    eexists. split; [reflexivity|]. simpl. repeat split. rewrite <- Hcount. reflexivity.
Qed.

Lemma incremental_sync_records_latest_modified_witness :
  exists r,
    find_row 1 (perform_incremental_sync 500 10 1 1 [Samples.item_v1]
                  (mk_env [Samples.running_row] Samples.cves0)).(env_rows) = Some r /\
    r.(sr_last_modified_date) = Some (latest_modified (500 - 7 * 86400) [Samples.item_v1]).
Proof.
  destruct (incremental_sync_records_latest_modified 500 10 1 1 [Samples.item_v1]
              (mk_env [Samples.running_row] Samples.cves0) Samples.running_row
              eq_refl ltac:(discriminate) eq_refl) as [(r & Hr & _ & _ & _ & Hm) _].
  exists r. split; [exact Hr|exact Hm].
Defined.

(** An incremental sync whose probe reports no record writes no CVE and
    ends with its row [completed], nothing processed, and [now] as
    high-water mark. *)
Theorem incremental_sync_nothing_to_do :
  forall now bs sid items e r0,
    find_row sid e.(env_rows) = Some r0 ->
    (perform_incremental_sync now bs sid 0 items e).(env_cves) = e.(env_cves) /\
    exists r,
      find_row sid (perform_incremental_sync now bs sid 0 items e).(env_rows) = Some r /\
      r.(sr_status) = COMPLETED /\ r.(sr_completed_at) = Some now /\
      r.(sr_processed_records) = 0%Z /\ r.(sr_total_records) = 0%Z /\
      r.(sr_last_modified_date) = Some now.
Proof.
  intros now bs sid items e r0 Hr0. unfold perform_incremental_sync. cbn [Z.eqb].
  split; [reflexivity|]. cbn [env_rows]. unfold update_sync_status.
  rewrite !find_row_update_row by reflexivity. rewrite Hr0.
  eexists. split; [reflexivity|]. repeat split.
Qed.

Lemma incremental_sync_nothing_to_do_witness :
  (perform_incremental_sync 500 10 1 0 [Samples.item_v1]
     (mk_env [Samples.running_row] Samples.cves0)).(env_cves) = Samples.cves0.
Proof.
  destruct (incremental_sync_nothing_to_do 500 10 1 [Samples.item_v1]
              (mk_env [Samples.running_row] Samples.cves0) Samples.running_row eq_refl)
    as [H _].
  exact H.
Defined.

(** *** The high-water mark the next incremental sync reads *)

Definition others_kept (sid : Z) (rs rs' : list sync_row) : Prop :=
  forall r, In r rs' -> sr_id r <> sid -> In r rs.

Lemma others_kept_refl sid rs : others_kept sid rs rs.
Proof. intros r Hin _. exact Hin. Qed.

Lemma others_kept_trans sid rs1 rs2 rs3 :
  others_kept sid rs1 rs2 -> others_kept sid rs2 rs3 -> others_kept sid rs1 rs3.
Proof. intros H12 H23 r Hin Hne. apply H12; [apply H23|]; assumption. Qed.

Lemma in_update_row sid f rs r :
  In r (update_row sid f rs) ->
  exists r0, In r0 rs /\ r = (if (sr_id r0 =? sid)%Z then f r0 else r0).
Proof.
  unfold update_row. intros Hin. apply in_map_iff in Hin as [r0 [<- Hin]].
  exists r0. split; [exact Hin|reflexivity].
Qed.

Lemma others_kept_update_row sid f rs :
  (forall r, sr_id (f r) = sr_id r) -> others_kept sid rs (update_row sid f rs).
Proof.
  intros Hf r Hin Hne. apply in_update_row in Hin as [r0 [Hin ->]].
  destruct (sr_id r0 =? sid)%Z eqn:E; [|exact Hin].
  apply Z.eqb_eq in E. rewrite Hf in Hne. contradiction.
Qed.

Lemma others_kept_full_sync_loop now bs sid total items :
  forall p c u b e,
    let '(_, _, _, _, e') := full_sync_loop now bs sid total items p c u b e in
    others_kept sid e.(env_rows) e'.(env_rows).
Proof.
  induction items as [|it rest IH]; intros p c u b e; simpl; [apply others_kept_refl|].
  destruct (bs <=? length (b ++ [it]))%nat; [|apply IH].
  destruct (run_batch now (b ++ [it]) e) as [[c0 u0] e0] eqn:Hrb.
  match goal with |- context [full_sync_loop _ _ _ _ _ ?p' ?c' ?u' [] ?e'] =>
    specialize (IH p' c' u' [] e') end.
  destruct (full_sync_loop _ _ _ _ _ _ _ _ _ _) as [[[[p1 c1] u1] b1] e1].
  eapply others_kept_trans; [|exact IH]. cbn [env_rows].
  rewrite <- (run_batch_rows _ _ _ _ _ _ Hrb).
  apply others_kept_update_row. reflexivity.
Qed.

Lemma completed_after_total a b : completed_after a b = false -> completed_after b a = true.
Proof.
  destruct a as [x|], b as [y|]; simpl; try discriminate; try reflexivity.
  intros H. apply Z.leb_gt in H. apply Z.leb_le. lia.
Qed.

Lemma completed_after_trans a b c :
  completed_after a b = true -> completed_after b c = true -> completed_after a c = true.
Proof.
  destruct a as [x|], b as [y|], c as [z|]; simpl; try discriminate; try reflexivity.
  intros H1 H2. apply Z.leb_le in H1, H2. apply Z.leb_le. lia.
Qed.

Lemma latest_completed_max l b :
  latest_completed l = Some b ->
  In b l /\ forall x, In x l -> completed_after b.(sr_completed_at) x.(sr_completed_at) = true.
Proof.
  revert b. induction l as [|r l IH]; intros b; simpl; [discriminate|].
  destruct (latest_completed l) as [b'|] eqn:El.
  - destruct (IH b' eq_refl) as [Hin Hmax].
    destruct (completed_after (sr_completed_at r) (sr_completed_at b')) eqn:E;
      intros Hb; injection Hb as <-.
    + split; [left; reflexivity|]. intros x [<-|Hx].
      * destruct (sr_completed_at r) as [z|]; simpl; [apply Z.leb_refl|reflexivity].
      * exact (completed_after_trans _ _ _ E (Hmax x Hx)).
    + split; [right; exact Hin|]. intros x [<-|Hx].
      * exact (completed_after_total _ _ E).
      * exact (Hmax x Hx).
  - intros Hb. injection Hb as <-. destruct l as [|y l]; [|simpl in El;
      destruct (latest_completed l); [destruct (completed_after _ _)|]; discriminate].
    split; [left; reflexivity|]. intros x [<-|[]].
    destruct (sr_completed_at r) as [z|]; simpl; [apply Z.leb_refl|reflexivity].
Qed.

Lemma latest_completed_nonempty l x : In x l -> latest_completed l <> None.
Proof.
  destruct l as [|r l]; [intros []|]. intros _. simpl.
  destruct (latest_completed l); [destruct (completed_after _ _)|]; discriminate.
Qed.

Lemma last_sync_date_after_completion now sid tot p c u mark rs rs2 :
  others_kept sid rs rs2 ->
  find_row sid rs2 <> None ->
  (forall r, In r rs -> sr_id r <> sid -> sr_status r = COMPLETED ->
             sr_last_modified_date r <> None ->
             exists t, sr_completed_at r = Some t /\ (t < now)%Z) ->
  get_last_sync_date (update_sync_status now sid COMPLETED tot p c u (Some mark) rs2)
  = Some mark.
Proof.
  intros Hk Hf Hold. unfold get_last_sync_date.
  set (keep := fun r => status_eqb (sr_status r) COMPLETED
                        && match sr_last_modified_date r with Some _ => true | None => false end).
  set (L := filter keep (update_sync_status now sid COMPLETED tot p c u (Some mark) rs2)).
  destruct (find_row sid rs2) as [r2|] eqn:Er2; [clear Hf|contradiction].
  unfold find_row in Er2. apply find_some in Er2 as [Hr2 Er2].
  set (f := fun r : sync_row =>
              mk_sync_row (sr_id r) (sr_sync_type r) COMPLETED (sr_started_at r)
                (if is_terminal COMPLETED then Some now else sr_completed_at r)
                tot p c u (sr_error_message r) (Some mark)).
  assert (HinL : In (f r2) L).
  { apply filter_In. split; [|reflexivity].
    unfold update_sync_status, update_row. apply in_map_iff. exists r2.
    rewrite Er2. split; [reflexivity|exact Hr2]. }
  destruct (latest_completed L) as [b|] eqn:Eb;
    [|exfalso; exact (latest_completed_nonempty L _ HinL Eb)].
  destruct (latest_completed_max L b Eb) as [HbL Hmax].
  specialize (Hmax _ HinL). cbn [f sr_completed_at is_terminal] in Hmax.
  apply filter_In in HbL as [HbL Hkeep].
  unfold update_sync_status in HbL. apply in_update_row in HbL as [b0 [Hb0 ->]].
  destruct (sr_id b0 =? sid)%Z eqn:Eid; [reflexivity|].
  apply Z.eqb_neq in Eid.
  unfold keep in Hkeep. apply andb_prop in Hkeep as [Hst Hlmd].
  assert (Hst' : sr_status b0 = COMPLETED) by (destruct (sr_status b0); try discriminate; reflexivity).
  destruct (Hold b0 (Hk b0 Hb0 Eid) Eid Hst') as [t [Ht Hlt]].
  - destruct (sr_last_modified_date b0); discriminate.
  - rewrite Ht in Hmax. simpl in Hmax. apply Z.leb_le in Hmax. lia.
Qed.

(** After an incremental sync, the next one starts from the mark this one
    recorded: [_get_last_sync_date] returns it (the latest [lastModified]
    seen, or [now] when the probe reported nothing), provided no streamed
    record's [lastModified] makes [datetime.fromisoformat] raise and every
    other completed run with a mark completed before [now]. *)
Theorem incremental_sync_mark_is_next_start :
  forall now bs sid total items e r0,
    find_row sid e.(env_rows) = Some r0 ->
    (forall r, In r e.(env_rows) -> sr_id r <> sid -> sr_status r = COMPLETED ->
               sr_last_modified_date r <> None ->
               exists t, sr_completed_at r = Some t /\ (t < now)%Z) ->
    (total <> 0%Z -> first_date_error items = None) ->
    let last := match get_last_sync_date e.(env_rows) with
                | Some d => d
                | None => (now - 7 * 86400)%Z
                end in
    get_last_sync_date (perform_incremental_sync now bs sid total items e).(env_rows)
    = Some (if Z.eqb total 0 then now else latest_modified last items).
Proof.
  intros now bs sid total items e r0 Hr0 Hold Hne last.
  unfold perform_incremental_sync. fold last.
  set (rs1 := update_sync_status now sid RUNNING total 0 0 0 None (env_rows e)).
  assert (Hk1 : others_kept sid (env_rows e) rs1)
    by (apply others_kept_update_row; reflexivity).
  assert (Hf1 : find_row sid rs1 <> None).
  { apply update_sync_status_keeps_row. rewrite Hr0. discriminate. }
  destruct (total =? 0)%Z eqn:Et.
  - cbn [env_rows]. apply (last_sync_date_after_completion _ _ _ _ _ _ _ (env_rows e) rs1);
      assumption.
  - apply Z.eqb_neq in Et. rewrite (Hne Et).
    pose proof (full_sync_loop_inv now bs sid total items 0 0 0 [] (mk_env rs1 (env_cves e)))
      as Hinv.
    pose proof (others_kept_full_sync_loop now bs sid total items 0 0 0 []
                  (mk_env rs1 (env_cves e))) as Hk2.
    destruct (full_sync_loop _ _ _ _ _ _ _ _ _ _) as [[[[p c] u] b] e2].
    destruct Hinv as [_ Hkeep]. specialize (Hkeep Hf1). cbn [env_rows] in Hk2.
    assert (Hk : others_kept sid (env_rows e) (env_rows e2)) by (eapply others_kept_trans; eassumption).
    destruct b as [|x b'].
    + cbn beta iota. cbn [env_rows].
      apply (last_sync_date_after_completion _ _ _ _ _ _ _ (env_rows e)); assumption.
    + destruct (run_batch now (x :: b') e2) as [[c0 u0] e3] eqn:Hrb.
      cbn beta iota. cbn [env_rows]. rewrite (run_batch_rows _ _ _ _ _ _ Hrb).
      apply (last_sync_date_after_completion _ _ _ _ _ _ _ (env_rows e)); assumption.
Qed.

Lemma incremental_sync_mark_is_next_start_witness :
  get_last_sync_date
    (perform_incremental_sync 500 10 1 1 [Samples.item_v1]
       (mk_env [Samples.running_row] Samples.cves0)).(env_rows)
  = Some (latest_modified (500 - 7 * 86400) [Samples.item_v1]).
Proof.
  apply (incremental_sync_mark_is_next_start 500 10 1 1 [Samples.item_v1]
           (mk_env [Samples.running_row] Samples.cves0) Samples.running_row eq_refl).
  - intros r [<-|[]] Hne. exfalso. apply Hne. reflexivity.
  - intros _. reflexivity.
Defined.

(** *** A full sync whose record stream fails *)

Lemma full_sync_loop_progress now bs sid total items :
  (1 <= bs)%nat ->
  forall p c u b e,
    (length b < bs)%nat ->
    option_map (fun r => (sr_processed_records r, sr_last_modified_date r))
      (find_row sid e.(env_rows)) = Some (p, None) ->
    let '(p', _, _, b', e') := full_sync_loop now bs sid total items p c u b e in
    option_map (fun r => (sr_processed_records r, sr_last_modified_date r))
      (find_row sid e'.(env_rows)) = Some (p', None) /\
    (length b' < bs)%nat /\
    exists k, p' = (p + Z.of_nat (bs * k))%Z.
Proof.
  intros Hbs. induction items as [|it rest IH]; intros p c u b e Hb Hrow; simpl.
  - split; [exact Hrow|]. split; [exact Hb|]. exists 0%nat. lia.
  - rewrite length_app. cbn [length].
    destruct (bs <=? length b + 1)%nat eqn:Ef.
    + apply Nat.leb_le in Ef.
      destruct (run_batch now (b ++ [it]) e) as [[c0 u0] e0] eqn:Hrb.
      match goal with |- context [full_sync_loop _ _ _ _ _ ?p' ?c' ?u' [] ?e'] =>
        specialize (IH p' c' u' [] e' ltac:(simpl; lia)) end.
      destruct (full_sync_loop _ _ _ _ _ _ _ _ _ _) as [[[[p1 c1] u1] b1] e1].
      destruct IH as (H1 & H2 & k & Hk).
      * cbn [env_rows]. unfold update_sync_status. rewrite find_row_update_row by reflexivity.
        rewrite (run_batch_rows _ _ _ _ _ _ Hrb).
        destruct (find_row sid (env_rows e)); [reflexivity|discriminate].
      * split; [exact H1|]. split; [exact H2|]. exists (S k). rewrite Hk. lia.
    + apply Nat.leb_gt in Ef.
      specialize (IH p c u (b ++ [it]) e ltac:(rewrite length_app; simpl; lia) Hrow).
      exact IH.
Qed.

Lemma full_sync_loop_app now bs sid total xs ys :
  forall p c u b e,
    full_sync_loop now bs sid total (xs ++ ys) p c u b e
    = let '(p', c', u', b', e') := full_sync_loop now bs sid total xs p c u b e in
      full_sync_loop now bs sid total ys p' c' u' b' e'.
Proof.
  induction xs as [|x xs IH]; intros p c u b e; [reflexivity|].
  cbn [app full_sync_loop]. destruct (bs <=? length (b ++ [x]))%nat.
  - destruct (run_batch now (b ++ [x]) e) as [[c0 u0] e0]. apply IH.
  - apply IH.
Qed.

(** Records that do not fill the batch are only appended to it. *)
Lemma full_sync_loop_short now bs sid total ys :
  forall p c u b e,
    (length b + length ys < bs)%nat ->
    full_sync_loop now bs sid total ys p c u b e = (p, c, u, b ++ ys, e).
Proof.
  induction ys as [|y ys IH]; intros p c u b e Hlen.
  - rewrite app_nil_r. reflexivity.
  - cbn [full_sync_loop]. cbn [length] in Hlen.
    rewrite (proj2 (Nat.leb_gt bs (length (b ++ [y])))) by (rewrite length_app; simpl; lia).
    rewrite IH by (rewrite length_app; simpl; lia).
    rewrite <- app_assoc. reflexivity.
Qed.

Lemma full_sync_loop_batches now bs sid total items :
  (1 <= bs)%nat ->
  forall p c u b e,
    (length b < bs)%nat ->
    let '(p', _, _, b', _) := full_sync_loop now bs sid total items p c u b e in
    (length b' < bs)%nat /\ exists k, p' = (p + Z.of_nat (bs * k))%Z.
Proof.
  intros Hbs. induction items as [|it rest IH]; intros p c u b e Hb; simpl.
  - split; [exact Hb|]. exists 0%nat. lia.
  - rewrite length_app. cbn [length].
    destruct (bs <=? length b + 1)%nat eqn:Ef.
    + apply Nat.leb_le in Ef.
      destruct (run_batch now (b ++ [it]) e) as [[c0 u0] e0].
      match goal with |- context [full_sync_loop _ _ _ _ _ ?p' ?c' ?u' [] ?e'] =>
        specialize (IH p' c' u' [] e' ltac:(simpl; lia)) end.
      destruct (full_sync_loop _ _ _ _ _ _ _ _ _ _) as [[[[p1 c1] u1] b1] e1].
      destruct IH as (H2 & k & Hk). split; [exact H2|].
      exists (S k). rewrite Hk. rewrite ?length_app. simpl. lia.
    + apply Nat.leb_gt in Ef. apply IH. rewrite length_app. simpl. lia.
Qed.

(** The batch loop run over a stream leaves the same state as the loop
    run over the records of its full batches only, which ends with an
    empty batch: the records of the last, partial batch change nothing. *)
Lemma full_sync_loop_drop_tail now bs sid total items p c u e :
  (1 <= bs)%nat ->
  let m := (bs * (length items / bs))%nat in
  let '(p1, c1, u1, b1, e1) := full_sync_loop now bs sid total (firstn m items) p c u [] e in
  b1 = [] /\
  full_sync_loop now bs sid total items p c u [] e
  = (p1, c1, u1, skipn m items, e1).
Proof.
  intros Hbs m.
  assert (Hm : (m <= length items)%nat) by (apply Nat.Div0.mul_div_le).
  pose proof (full_sync_loop_inv now bs sid total (firstn m items) p c u [] e) as Hinv.
  pose proof (full_sync_loop_batches now bs sid total (firstn m items) Hbs p c u [] e
                ltac:(simpl; lia)) as Hbat.
  assert (Hsplit : full_sync_loop now bs sid total items p c u [] e
                   = full_sync_loop now bs sid total (firstn m items ++ skipn m items) p c u [] e)
    by (rewrite firstn_skipn; reflexivity).
  rewrite Hsplit, full_sync_loop_app.
  destruct (full_sync_loop _ _ _ _ _ _ _ _ _ _) as [[[[p1 c1] u1] b1] e1].
  destruct Hinv as [Hcount _]. destruct Hbat as (Hb1 & k & Hk).
  rewrite length_firstn, Nat.min_l in Hcount by exact Hm. simpl in Hcount.
  assert (Hb0 : b1 = []).
  { destruct b1 as [|x b1']; [reflexivity|exfalso].
    cbn [length] in Hb1, Hcount.
    assert (Hq : (bs * k + S (length b1') = bs * (length items / bs))%nat) by (unfold m in Hcount; lia).
    destruct (Nat.le_gt_cases (length items / bs) k); nia. }
  subst b1. split; [reflexivity|].
  rewrite full_sync_loop_short; [reflexivity|].
  rewrite length_skipn. cbn [length].
  pose proof (Nat.div_mod (length items) bs ltac:(lia)).
  pose proof (Nat.mod_upper_bound (length items) bs ltac:(lia)).
  unfold m. lia.
Qed.

(** A failed full sync leaves the cves table as a completed full sync of
    the records of its full batches only. *)
Lemma stream_failure_cves now bs sid total items err e :
  (1 <= bs)%nat ->
  (full_sync_stream_failure now bs sid total items err e).(env_cves)
  = (perform_full_sync now bs sid total (firstn (bs * (length items / bs)) items) e).(env_cves).
Proof.
  intros Hbs. unfold full_sync_stream_failure, perform_full_sync.
  pose proof (full_sync_loop_drop_tail now bs sid total items 0 0 0
                (mk_env (update_sync_status now sid RUNNING total 0 0 0 None (env_rows e))
                        (env_cves e)) Hbs) as Hd.
  cbv zeta in Hd |- *.
  destruct (full_sync_loop now bs sid total (firstn (bs * (length items / bs)) items) _ _ _ _ _)
    as [[[[p1 c1] u1] b1] e1].
  destruct Hd as [-> ->]. reflexivity.
Qed.

(** The row of a failed full sync. *)
Lemma stream_failure_row now bs sid total items err e r0 :
  (1 <= bs)%nat -> sid <> 0%Z ->
  find_row sid e.(env_rows) = Some r0 ->
  exists r,
    find_row sid (full_sync_stream_failure now bs sid total items err e).(env_rows) = Some r /\
    r.(sr_status) = FAILED /\
    r.(sr_error_message) = Some err /\
    r.(sr_completed_at) = Some now /\
    r.(sr_processed_records) = Z.of_nat (bs * (length items / bs)) /\
    r.(sr_last_modified_date) = None.
Proof.
  intros Hbs Hsid Hr0.
  unfold full_sync_stream_failure.
  set (e1 := mk_env (update_sync_status now sid RUNNING total 0 0 0 None (env_rows e))
                    (env_cves e)).
  assert (H1 : option_map (fun r => (sr_processed_records r, sr_last_modified_date r))
                 (find_row sid (env_rows e1)) = Some (0%Z, None)).
  { unfold e1. cbn [env_rows]. unfold update_sync_status.
    rewrite find_row_update_row by reflexivity. rewrite Hr0. reflexivity. }
  pose proof (full_sync_loop_inv now bs sid total items 0 0 0 [] e1) as Hinv.
  pose proof (full_sync_loop_progress now bs sid total items Hbs 0 0 0 [] e1
                ltac:(simpl; lia) H1) as Hprog.
  destruct (full_sync_loop _ _ _ _ _ _ _ _ _ _) as [[[[p c] u] b] e2].
  destruct Hinv as [Hcount _]. destruct Hprog as (Hrow & Hb & k & Hk).
  cbn [env_rows]. unfold update_sync_status_error.
  apply Z.eqb_neq in Hsid. rewrite Hsid.
  rewrite find_row_update_row by reflexivity.
  destruct (find_row sid (env_rows e2)) as [r2|]; [|discriminate].
  injection Hrow as Hp Hl.
  eexists. split; [reflexivity|]. cbn. repeat split; [|exact Hl].
  rewrite Hp, Hk. simpl in Hcount.
  assert (Hdiv : k = (length items / bs)%nat).
  { apply (Nat.div_unique (length items) bs k (length b)); lia. }
  rewrite <- Hdiv. lia.
Qed.

(** When the record stream of a full sync raises after yielding [items],
    the run's row ends [failed] with the error text and a completion time;
    its processed count is that of the batches already written, a multiple
    of the batch size, and it has no high-water mark; the cves table ends
    as after a completed full sync of the records of those full batches
    alone: the records of the pending partial batch are dropped without
    being written or counted. *)
Theorem full_sync_stream_failure_drops_partial_batch :
  forall now bs sid total items err e r0,
    (1 <= bs)%nat -> sid <> 0%Z ->
    find_row sid e.(env_rows) = Some r0 ->
    (exists r,
      find_row sid (full_sync_stream_failure now bs sid total items err e).(env_rows) = Some r /\
      r.(sr_status) = FAILED /\
      r.(sr_error_message) = Some err /\
      r.(sr_completed_at) = Some now /\
      r.(sr_processed_records) = Z.of_nat (bs * (length items / bs)) /\
      r.(sr_last_modified_date) = None) /\
    (full_sync_stream_failure now bs sid total items err e).(env_cves)
    = (perform_full_sync now bs sid total (firstn (bs * (length items / bs)) items) e).(env_cves).
Proof.
  intros now bs sid total items err e r0 Hbs Hsid Hr0. split.
  - exact (stream_failure_row now bs sid total items err e r0 Hbs Hsid Hr0).
  - exact (stream_failure_cves now bs sid total items err e Hbs).
Qed.

Lemma full_sync_stream_failure_drops_partial_batch_witness :
  (exists r,
    find_row 1 (full_sync_stream_failure 500 2 1 3 [Samples.item_v1; Samples.item_v2;
                                                    Samples.item_bad_id] "boom"
                  (mk_env [Samples.running_row] Samples.cves0)).(env_rows) = Some r /\
    r.(sr_processed_records) = 2%Z) /\
  (full_sync_stream_failure 500 2 1 3 [Samples.item_v1; Samples.item_v2; Samples.item_bad_id]
     "boom" (mk_env [Samples.running_row] Samples.cves0)).(env_cves)
  = (perform_full_sync 500 2 1 3 [Samples.item_v1; Samples.item_v2]
       (mk_env [Samples.running_row] Samples.cves0)).(env_cves).
Proof.
  destruct (full_sync_stream_failure_drops_partial_batch 500 2 1 3
              [Samples.item_v1; Samples.item_v2; Samples.item_bad_id] "boom"
              (mk_env [Samples.running_row] Samples.cves0) Samples.running_row
              ltac:(lia) ltac:(discriminate) eq_refl) as [(r & Hr & _ & _ & _ & Hp & _) Hc].
  split.
  - exists r. split; [exact Hr|]. rewrite Hp. reflexivity.
  - exact Hc.
Defined.

(** *** An incremental sync on a record whose [lastModified] raises *)

Lemma first_date_error_lt items k msg :
  first_date_error items = Some (k, msg) -> (k < length items)%nat.
Proof.
  revert k. induction items as [|it rest IH]; intros k; simpl; [discriminate|].
  destruct (ni_last_modified_error it).
  - intros H. injection H as <- _. lia.
  - destruct (first_date_error rest) as [[k' m']|]; [|discriminate].
    intros H. injection H as <- ->. specialize (IH k' eq_refl). lia.
Qed.

Lemma incremental_bad_date_is_stream_failure now bs sid total items e k msg :
  total <> 0%Z -> first_date_error items = Some (k, msg) ->
  perform_incremental_sync now bs sid total items e
  = full_sync_stream_failure now bs sid total (firstn k items) msg e.
Proof.
  intros Htot Hk. unfold perform_incremental_sync, full_sync_stream_failure.
  apply Z.eqb_neq in Htot. rewrite Htot, Hk. reflexivity.
Qed.

(** When the [lastModified] of streamed record [k] makes
    [datetime.fromisoformat] raise (an empty, null or malformed value),
    the incremental sync fails: its row ends [failed] with [str(e)] as
    error message and a completion time, with no high-water mark, and as
    processed count the records of the full batches written before
    record [k]; the cves table ends as after a completed full sync of
    those records alone: record [k] and the records of its batch are not
    written. *)
Theorem incremental_sync_bad_date_fails :
  forall now bs sid total items e r0 k msg,
    (1 <= bs)%nat -> sid <> 0%Z -> total <> 0%Z ->
    find_row sid e.(env_rows) = Some r0 ->
    first_date_error items = Some (k, msg) ->
    (exists r,
      find_row sid (perform_incremental_sync now bs sid total items e).(env_rows) = Some r /\
      r.(sr_status) = FAILED /\
      r.(sr_error_message) = Some msg /\
      r.(sr_completed_at) = Some now /\
      r.(sr_processed_records) = Z.of_nat (bs * (k / bs)) /\
      r.(sr_last_modified_date) = None) /\
    (perform_incremental_sync now bs sid total items e).(env_cves)
    = (perform_full_sync now bs sid total (firstn (bs * (k / bs)) items) e).(env_cves).
Proof.
  intros now bs sid total items e r0 k msg Hbs Hsid Htot Hr0 Hk.
  pose proof (first_date_error_lt items k msg Hk) as Hlt.
  assert (Hlen : length (firstn k items) = k)
    by (rewrite length_firstn; apply Nat.min_l; lia).
  rewrite (incremental_bad_date_is_stream_failure now bs sid total items e k msg Htot Hk).
  split.
  - pose proof (stream_failure_row now bs sid total (firstn k items) msg e r0 Hbs Hsid Hr0)
      as Hrow.
    rewrite Hlen in Hrow. exact Hrow.
  - rewrite (stream_failure_cves now bs sid total (firstn k items) msg e Hbs), Hlen.
    rewrite firstn_firstn, Nat.min_l by (apply Nat.Div0.mul_div_le).
    reflexivity.
Qed.

Lemma incremental_sync_bad_date_fails_witness :
  exists r,
    find_row 1 (perform_incremental_sync 500 1 1 3
                  [Samples.item_v1; Samples.item_bad_date; Samples.item_v2]
                  (mk_env [Samples.running_row] Samples.cves0)).(env_rows) = Some r /\
    r.(sr_status) = FAILED /\
    r.(sr_processed_records) = 1%Z.
Proof.
  destruct (incremental_sync_bad_date_fails 500 1 1 3
              [Samples.item_v1; Samples.item_bad_date; Samples.item_v2]
              (mk_env [Samples.running_row] Samples.cves0) Samples.running_row
              1 "Invalid isoformat string: ''"
              ltac:(lia) ltac:(discriminate) ltac:(discriminate) eq_refl eq_refl)
    as [(r & Hr & Hst & _ & _ & Hp & _) _].
  exists r. split; [exact Hr|]. split; [exact Hst|]. rewrite Hp. reflexivity.
Defined.
